(** * Verification of the cross-device visual analysis tool

    A shallow embedding of [visual-analysis-tool.js] (class [VisualAnalyzer])
    and the proofs of its specified properties.

    Modelling decisions, all taken from the source:
    - the analyzer instance is a record; [this.issues] is the only field that
      is mutated, the methods thread it (with the console) through a small
      state-and-exception monad;
    - the file system is a read-only snapshot: a finite map from directory
      paths to the entries of the directory, every entry with its byte size
      ([st_size], a 64-bit integer).  A directory is looked up under the
      string that is handed to the file system: for [fs.readdirSync] the
      configured path as it is spelled; for [fs.existsSync] and
      [fs.statSync] the directory part of the result of [path.join] (POSIX
      rules), which joins its two arguments by a separator and normalises
      them, so that a separator or a [..] inside a device or page name leads
      into another directory.  (A directory that the program reaches under
      two spellings has the same entries under both.);
    - JavaScript objects used as dictionaries ([sizes], [sizes[page]]) are
      finite maps with string keys.  In [sizes[page]] the keys are the own
      properties: the assignment of a number to the key [__proto__] stores
      nothing, and a read of a key that is not an own property finds the
      members of [Object.prototype].  In [sizes], where objects are assigned
      and read back under the same key, the key [__proto__] stands for the
      prototype that such an assignment replaces;
    - [fs.Stats.size] is a number: the double nearest to the byte size;
      [max / min] is the IEEE-754 binary64 division, rounded to nearest, ties
      to even; [toFixed(1)] is the decimal rounding of the exact value of
      that double. *)

From Stdlib Require Import ZArith Lia.
From stdpp Require Import base option list strings pretty gmap fin_maps fin_sets.

Local Open Scope string_scope.

(** ** Strings *)

Definition nl : string := String (Ascii.ascii_of_nat 10) EmptyString.

(** [String.prototype.includes]: [sub] occurs in [s] at some offset. *)
Fixpoint includes (s sub : string) : bool :=
  String.prefix sub s ||
  match s with
  | EmptyString => false
  | String _ s' => includes s' sub
  end.

(** [Array.prototype.join]. *)
Fixpoint join (sep : string) (l : list string) : string :=
  match l with
  | [] => ""
  | [x] => x
  | x :: l' => x ++ sep ++ join sep l'
  end.

(** ** Issues *)

Inductive IssueType :=
  | MISSING_DEVICE_SUPPORT
  | LAYOUT_INCONSISTENCY
  | MISSING_BASELINE
  | MOBILE_NAV_MISSING
  | INCOMPLETE_HOMEPAGE_TESTING.

Inductive Severity := HIGH | MEDIUM | LOW.

Global Instance IssueType_eq_dec : EqDecision IssueType.
Proof. solve_decision. Defined.
Global Instance Severity_eq_dec : EqDecision Severity.
Proof. solve_decision. Defined.

Definition type_name (t : IssueType) : string :=
  match t with
  | MISSING_DEVICE_SUPPORT => "MISSING_DEVICE_SUPPORT"
  | LAYOUT_INCONSISTENCY => "LAYOUT_INCONSISTENCY"
  | MISSING_BASELINE => "MISSING_BASELINE"
  | MOBILE_NAV_MISSING => "MOBILE_NAV_MISSING"
  | INCOMPLETE_HOMEPAGE_TESTING => "INCOMPLETE_HOMEPAGE_TESTING"
  end.

(** The object literals pushed on [this.issues]; a property that a literal
    does not mention is [None]. *)
Record Issue := mkIssue {
  type : IssueType;
  page : option string;
  device : option string;
  severity : Severity;
  description : string;
  devices_of : option (list string);
  sizes_of : option (gmap string N);
  filename : option string
}.

Global Instance Issue_eq_dec : EqDecision Issue.
Proof. solve_decision. Defined.

(** ** Numbers

    Byte sizes are non-negative integers; [fs.Stats.size] reports them as
    JavaScript numbers, exactly as long as they stay below [2^53].  The only
    non-integer number of the program is [ratio = max / min]. *)

Inductive Number :=
  | NaN
  | Infinity
  | Finite (m e : Z).  (* the non-negative dyadic m * 2^e *)

(** The integer division that yields the significand of [a / b] at the
    exponent [e]: [a * 2^-e / b]. *)
Definition scaled (a b e : Z) : Z * Z :=
  if (e <=? 0)%Z then (a * 2 ^ (- e), b)%Z else (a, b * 2 ^ e)%Z.

(** The significand at exponent [e], rounded to nearest, ties to even. *)
Definition round_at (a b e : Z) : Z :=
  let '(n, d) := scaled a b e in
  let q := (n / d)%Z in
  let r := (n mod d)%Z in
  let up := ((d <? 2 * r) || ((2 * r =? d) && Z.odd q))%Z in
  if up then (q + 1)%Z else q.

(** Nearest binary64 to [a / b] for positive integers [a] and [b]: a
    significand [m] of 53 bits and an exponent [e], so that the value is
    [m * 2^e]; below [2^-1022] the exponent stays at [-1074] (subnormal
    numbers). *)
Definition round_div (a b : Z) : Z * Z :=
  let e0 := (Z.log2 a - Z.log2 b - 52)%Z in
  let e1 := (if (let '(n, d) := scaled a b e0 in n / d) <? 2 ^ 52
             then e0 - 1 else e0)%Z in
  let e := Z.max e1 (-1074) in
  (round_at a b e, e).

(** [a / b] on two non-negative integers. *)
Definition div (a b : N) : Number :=
  if (b =? 0)%N then
    if (a =? 0)%N then NaN else Infinity
  else if (a =? 0)%N then Finite 0 0
  else let '(m, e) := round_div (Z.of_N a) (Z.of_N b) in
       if (2 ^ 1024 <=? m * 2 ^ Z.max 0 e)%Z then Infinity else Finite m e.

(** The number that holds a byte size: the nearest double, which is the size
    itself below [2^53].  ([st_size] is a 64-bit integer, far from the
    overflow of a double.) *)
Definition to_double (n : N) : N :=
  if (n <? 2 ^ 53)%N then n
  else
    let sh := (N.log2 n - 52)%N in
    let q := (n / 2 ^ sh)%N in
    let r := (n mod 2 ^ sh)%N in
    let up := ((2 ^ sh <? 2 * r) || ((2 * r =? 2 ^ sh) && N.odd q))%N in
    ((if up then q + 1 else q) * 2 ^ sh)%N.

(** [x > k] for an integer literal [k]. *)
Definition gt (x : Number) (k : Z) : bool :=
  match x with
  | NaN => false
  | Infinity => true
  | Finite m e => (k * 2 ^ Z.max 0 (- e) <? m * 2 ^ Z.max 0 e)%Z
  end.

(** [x.toFixed(1)] for [0 <= x < 10^21]: the integer [n] with [n / 10]
    nearest to [x], the larger one on a tie, printed with one digit after
    the point. *)
Definition toFixed1 (x : Number) : string :=
  match x with
  | NaN => "NaN"
  | Infinity => "Infinity"
  | Finite m e =>
      let d := (2 ^ Z.max 0 (- e))%Z in
      let n := ((2 * 10 * (m * 2 ^ Z.max 0 e) + d) / (2 * d))%Z in
      pretty (n / 10)%Z ++ "." ++ pretty (n mod 10)%Z
  end.

(** [Math.max(...l)] and [Math.min(...l)].  The program calls them under the
    guard [sizes_array.length > 1] only; on the empty list (where JavaScript
    answers with an infinity) the model's value is never used. *)
Definition Math_max (l : list N) : N :=
  match l with
  | [] => 0%N
  | x :: l' => foldl N.max x l'
  end.

Definition Math_min (l : list N) : N :=
  match l with
  | [] => 0%N
  | x :: l' => foldl N.min x l'
  end.

(** ** File system *)

Definition FileSystem : Type := gmap string (gmap string N).

(** A call [path.join(dir, name)], kept as its two arguments: [path_string]
    below is the string the call returns, [resolve] the directory and the
    entry that this string names. *)
Definition path : Type := string * string.

Definition path_join (dir name : string) : path := (dir, name).

Definition slash : Ascii.ascii := Ascii.ascii_of_nat 47.

(** [s.split('/')] *)
Fixpoint split_slash (s : string) : list string :=
  match s with
  | "" => [""]
  | String c s' =>
      if decide (c = slash) then "" :: split_slash s'
      else match split_slash s' with
           | seg :: rest => String c seg :: rest
           | [] => [String c ""]
           end
  end.

(** One step of the normalisation of a path, on the segments kept so far
    (the last one first): empty and [.] segments are dropped, [..] removes
    the segment before it, and is kept at the start of a relative path. *)
Definition push_segment (allowAboveRoot : bool) (kept : list string) (seg : string)
    : list string :=
  if decide (seg = "" ∨ seg = ".") then kept
  else if decide (seg = "..") then
    match kept with
    | top :: rest => if decide (top = "..") then seg :: kept else rest
    | [] => if allowAboveRoot then [seg] else []
    end
  else seg :: kept.

Definition is_absolute (s : string) : bool := String.prefix "/" s.

(** The segments of the normalised path [s]. *)
Definition segments (s : string) : list string :=
  rev (foldl (push_segment (negb (is_absolute s))) [] (split_slash s)).

Fixpoint join_slash (l : list string) : string :=
  match l with
  | [] => ""
  | [x] => x
  | x :: l' => x ++ "/" ++ join_slash l'
  end.

(** The path made of the segments [segs]. *)
Definition segments_string (absolute : bool) (segs : list string) : string :=
  match segs with
  | [] => if absolute then "/" else "."
  | _ => (if absolute then "/" else "") ++ join_slash segs
  end.

(** The string that [path.join] hands over. *)
Definition joined (p : path) : string :=
  if decide (p.1 = "") then p.2
  else if decide (p.2 = "") then p.1
  else p.1 ++ "/" ++ p.2.

(** [path.join(dir, name)], as a string. *)
Definition path_string (p : path) : string :=
  segments_string (is_absolute (joined p)) (segments (joined p)).

(** [path.join(dir, name)], as the directory that holds the file and the
    name of the file in it.  (The joined names of the program end in
    [-baseline.png], never in a separator.) *)
Definition resolve (p : path) : string * string :=
  let segs := segments (joined p) in
  (segments_string (is_absolute (joined p)) (removelast segs), List.last segs ".").

Definition lookup_path (fs : FileSystem) (p : path) : option N :=
  let '(parent, base) := resolve p in
  match fs !! parent with
  | Some entries => entries !! base
  | None => None
  end.

(** A name without a separator. *)
Definition plain_name (s : string) : Prop := includes s "/" = false.

(** A directory path that [path.join] leaves as it is spelled. *)
Definition normalized (dir : string) : Prop :=
  dir ≠ "" ∧ segments_string (is_absolute dir) (segments dir) = dir.

Record Stats := { size_of : N }.

(** ** The state-and-exception monad of the methods *)

Inductive Error :=
  | ENOENT (syscall : string) (target : string)
  | TypeError (message : string).

Record State := mkState {
  issues : list Issue;        (* this.issues *)
  stdout : list string;       (* one entry per console.log call *)
  stderr : list Error         (* one entry per console.error call *)
}.

Inductive Result (A : Type) :=
  | Ok (a : A)
  | Throw (e : Error).
Arguments Ok {A} a.
Arguments Throw {A} e.

Definition M (A : Type) : Type := State → Result A * State.

Definition ret {A} (a : A) : M A := λ st, (Ok a, st).

Definition bind {A B} (m : M A) (k : A → M B) : M B :=
  λ st, match m st with
        | (Ok a, st') => k a st'
        | (Throw e, st') => (Throw e, st')
        end.

Definition throw {A} (e : Error) : M A := λ st, (Throw e, st).

Notation "x <- m ;; k" := (bind m (λ x, k))
  (at level 100, m at next level, right associativity).
Notation "m ;; k" := (bind m (λ _, k))
  (at level 100, right associativity).

Definition push (i : Issue) : M unit :=
  λ st, (Ok (), mkState (issues st ++ [i]) (stdout st) (stderr st)).

Definition get_issues : M (list Issue) := λ st, (Ok (issues st), st).

Definition console_log (line : string) : M unit :=
  λ st, (Ok (), mkState (issues st) (stdout st ++ [line]) (stderr st)).

Definition console_error (e : Error) : M unit :=
  λ st, (Ok (), mkState (issues st) (stdout st) (stderr st ++ [e])).

Definition when (b : bool) (m : M unit) : M unit := if b then m else ret ().

(** [l.forEach(x => f x)] *)
Fixpoint forEach {A} (l : list A) (f : A → M unit) : M unit :=
  match l with
  | [] => ret ()
  | x :: l' => f x ;; forEach l' f
  end.

(** [l.forEach((x, i) => f x i)], the index counted from [i0]. *)
Fixpoint forEach_i {A} (l : list A) (i0 : nat) (f : A → nat → M unit) : M unit :=
  match l with
  | [] => ret ()
  | x :: l' => f x i0 ;; forEach_i l' (S i0) f
  end.

(** A [forEach] whose callback updates a local object [acc]. *)
Fixpoint forEach_acc {A B} (l : list A) (acc : B) (f : B → A → M B) : M B :=
  match l with
  | [] => ret acc
  | x :: l' => acc' <- f acc x ;; forEach_acc l' acc' f
  end.

(** [fs.existsSync] never throws. *)
Definition existsSync (fs : FileSystem) (p : path) : bool :=
  match lookup_path fs p with
  | Some _ => true
  | None => false
  end.

Definition statSync (fs : FileSystem) (p : path) : M Stats :=
  match lookup_path fs p with
  | Some n => ret {| size_of := to_double n |}
  | None => throw (ENOENT "stat" (path_string p))
  end.

Definition readdirSync (fs : FileSystem) (dir : string) : M (list string) :=
  match fs !! dir with
  | Some entries => ret (map_to_list entries).*1
  | None => throw (ENOENT "scandir" dir)
  end.

(** ** The analyzer *)

(** The fields the constructor assigns and no method assigns again;
    [this.issues] lives in [State]. *)
Record VisualAnalyzer := {
  baselinesDir : string;
  devices : list string;
  pages : list string
}.

Definition constructor : VisualAnalyzer := {|
  baselinesDir := "visual-tests/baselines";
  devices := ["Mobile"; "Mobile-Large"; "Tablet"; "Desktop"];
  pages := ["addpagehere"; "addpagehere"; "addpagehere"; "addpagehere"; "addpagehere"]
|}.

(** The state right after [new VisualAnalyzer()]. *)
Definition fresh : State := mkState [] [] [].

Definition baseline_name (device page : string) : string :=
  device ++ "-" ++ page ++ "-baseline.png".

Section methods.
Variable this : VisualAnalyzer.
Variable fs : FileSystem.

(** The names every object inherits from [Object.prototype]; each of them
    reads as a truthy value. *)
Definition Object_prototype : list string := [
  "constructor"; "__defineGetter__"; "__defineSetter__"; "hasOwnProperty";
  "__lookupGetter__"; "__lookupSetter__"; "isPrototypeOf"; "propertyIsEnumerable";
  "toString"; "valueOf"; "__proto__"; "toLocaleString"
].

(** [obj[key] = v] for a number [v]: the setter of [__proto__] ignores a
    number, any other key becomes an own property. *)
Definition set_property (obj : gmap string N) (key : string) (v : N) : gmap string N :=
  if decide (key = "__proto__") then obj else <[key := v]> obj.

(** First loop of [analyzeSizes]: fill the local object [sizes]. *)
Definition record_size (page : string) (sizes : gmap string (gmap string N))
    (device : string) : M (gmap string (gmap string N)) :=
  let filename := baseline_name device page in
  let filepath := path_join (baselinesDir this) filename in
  if existsSync fs filepath then
    stats <- statSync fs filepath ;;
    match sizes !! page with
    | Some pageSizes =>
        ret (<[page := set_property pageSizes device (size_of stats)]> sizes)
    | None => throw (TypeError "Cannot set properties of undefined")
    end
  else ret sizes.

Definition collect_sizes : M (gmap string (gmap string N)) :=
  forEach_acc (pages this) ∅ (λ sizes page,
    forEach_acc (devices this) (<[page := ∅]> sizes) (record_size page)).

(** [!pageSizes[d]]: the own property is the number 0, or there is no own
    property and nothing is inherited under that name. *)
Definition falsy_size (pageSizes : gmap string N) (d : string) : bool :=
  match pageSizes !! d with
  | Some n => (n =? 0)%N
  | None => negb (bool_decide (d ∈ Object_prototype))
  end.

Definition missing_device_support (page : string) (pageSizes : gmap string N) : Issue := {|
  type := MISSING_DEVICE_SUPPORT;
  page := Some page;
  device := None;
  severity := HIGH;
  description := page ++ " page missing on some devices";
  devices_of := Some (filter (λ d, falsy_size pageSizes d = true) (devices this));
  sizes_of := None;
  filename := None
|}.

Definition layout_inconsistency (page : string) (ratio : Number)
    (pageSizes : gmap string N) : Issue := {|
  type := LAYOUT_INCONSISTENCY;
  page := Some page;
  device := None;
  severity := MEDIUM;
  description :=
    "Extreme content differences across devices (" ++ toFixed1 ratio ++ "x variation)";
  devices_of := None;
  sizes_of := Some pageSizes;
  filename := None
|}.

(** Second loop of [analyzeSizes], one page. *)
Definition check_page (sizes : gmap string (gmap string N)) (page : string) : M unit :=
  match sizes !! page with
  | None => throw (TypeError "Cannot convert undefined or null to object")
  | Some pageSizes =>
      let deviceSizes := map_to_list pageSizes in
      when (length deviceSizes <? 4)%nat
        (push (missing_device_support page pageSizes)) ;;
      let sizes_array := (map_to_list pageSizes).*2 in
      if (1 <? length sizes_array)%nat then
        let max := Math_max sizes_array in
        let min := Math_min sizes_array in
        let ratio := div max min in
        when (gt ratio 3) (push (layout_inconsistency page ratio pageSizes))
      else ret ()
  end.

Definition analyzeSizes : M unit :=
  console_log "📏 Analyzing screenshot file sizes across devices..." ;;
  sizes <- collect_sizes ;;
  forEach (pages this) (check_page sizes) ;;
  found <- get_issues ;;
  console_log ("OK--> Size analysis complete. Found " ++ pretty (length found)
               ++ " potential issues." ++ nl).

Definition missing_baseline (device page filename : string) : Issue := {|
  type := MISSING_BASELINE;
  page := Some page;
  device := Some device;
  severity := HIGH;
  description := "Missing baseline for " ++ device ++ " " ++ page;
  devices_of := None;
  sizes_of := None;
  filename := Some filename
|}.

Definition checkMissingFiles : M unit :=
  console_log "📋 Checking for missing baseline files..." ;;
  missing <- forEach_acc (devices this) 0%nat (λ missing device,
    forEach_acc (pages this) missing (λ missing page,
      let filename := baseline_name device page in
      let filepath := path_join (baselinesDir this) filename in
      if negb (existsSync fs filepath) then
        push (missing_baseline device page filename) ;;
        ret (S missing)
      else ret missing)) ;;
  console_log ("OK--> File check complete. " ++ pretty missing ++ " missing files." ++ nl).

Definition mobile_nav_missing : Issue := {|
  type := MOBILE_NAV_MISSING;
  page := None;
  device := None;
  severity := HIGH;
  description :=
    "No mobile navigation screenshots found - hamburger menu testing required";
  devices_of := None;
  sizes_of := None;
  filename := None
|}.

Definition incomplete_homepage_testing : Issue := {|
  type := INCOMPLETE_HOMEPAGE_TESTING;
  page := None;
  device := None;
  severity := MEDIUM;
  description := "Homepage not tested on all device sizes";
  devices_of := None;
  sizes_of := None;
  filename := None
|}.

Definition is_mobile_nav (file : string) : bool :=
  includes file "nav" && includes file "Mobile".

Definition is_homepage (file : string) : bool :=
  includes file "homepage" && includes file "baseline".

Definition analyzeLayoutPatterns : M unit :=
  console_log "🎨 Analyzing layout patterns for 2025 best practices..." ;;
  listing <- readdirSync fs (baselinesDir this) ;;
  let mobileNavFiles := filter (λ file, is_mobile_nav file = true) listing in
  when (length mobileNavFiles =? 0)%nat (push mobile_nav_missing) ;;
  listing' <- readdirSync fs (baselinesDir this) ;;
  let homepageFiles := filter (λ file, is_homepage file = true) listing' in
  when (length homepageFiles <? 4)%nat (push incomplete_homepage_testing) ;;
  console_log ("OK-> Pattern analysis complete." ++ nl).
End methods.

Section report.
Variable this : VisualAnalyzer.
Variable fs : FileSystem.

Definition has_severity (s : Severity) (i : Issue) : Prop := severity i = s.

Global Instance has_severity_dec s i : Decision (has_severity s i).
Proof. unfold has_severity. apply _. Defined.

Definition print_issue (issue : Issue) (i : nat) : M unit :=
  console_log (pretty (i + 1)%nat ++ ". " ++ type_name (type issue) ++ ": "
               ++ description issue).

Definition summary (critical medium all : nat) : list string := [
  nl ++ "📊 ANALYSIS SUMMARY:";
  "   Critical Issues: " ++ pretty critical;
  "   Medium Issues: " ++ pretty medium;
  "   Total Issues: " ++ pretty all;
  "   Devices Tested: " ++ pretty (length (devices this));
  "   Pages Analyzed: " ++ pretty (length (pages this))
].

Definition generateRecommendations : M unit :=
  console_log ("💡 Generating 2025 Mobile-First Recommendations..." ++ nl) ;;
  all <- get_issues ;;
  let critical := filter (has_severity HIGH) all in
  let medium := filter (has_severity MEDIUM) all in
  let low := filter (has_severity LOW) all in
  console_log "🚨 CRITICAL ISSUES (Fix First):" ;;
  forEach_i critical 0 (λ issue i,
    print_issue issue i ;;
    match devices_of issue with
    | Some ds => console_log ("   Missing devices: " ++ join ", " ds)
    | None => ret ()
    end) ;;
  console_log (nl ++ "⚠️  MEDIUM PRIORITY ISSUES:") ;;
  forEach_i medium 0 print_issue ;;
  console_log (nl ++ "📝 RECOMMENDED FIXES FOR 2025 STANDARDS:" ++ nl) ;;
  when (0 <? length critical)%nat (forEach [
    "1. 📱 MOBILE-FIRST RESPONSIVE FIXES:";
    "   - Implement consistent mobile navigation across all device sizes";
    "   - Ensure hamburger menu functionality on Mobile/Mobile-Large";
    "   - Add proper touch targets (44px minimum) for mobile interactions";
    "   - Implement fluid typography with clamp() for consistent scaling"
  ] console_log) ;;
  when (0 <? length medium)%nat (forEach [
    nl ++ "2. 🎨 LAYOUT CONSISTENCY FIXES:";
    "   - Standardize content hierarchy across device breakpoints";
    "   - Implement CSS Grid/Flexbox for consistent layouts";
    "   - Add proper spacing scales using CSS custom properties";
    "   - Ensure consistent component behavior across viewports"
  ] console_log) ;;
  forEach [
    nl ++ "3. 🚀 2025 PERFORMANCE OPTIMIZATIONS:";
    "   - Implement responsive images with next/image";
    "   - Add proper loading states for better perceived performance";
    "   - Use CSS container queries for component-level responsiveness";
    "   - Implement proper focus management for accessibility"
  ] console_log ;;
  all' <- get_issues ;;
  forEach (summary (length critical) (length medium) (length all')) console_log.

Definition banner : list string := [
  "Starting Cross-Device Visual Analysis...";
  "2025 Mobile-First Responsive Design Standards Check" ++ nl
].

(** The body of the [async] method; a [Throw] is the rejection of the
    promise it returns. *)
Definition analyze : M (list Issue) :=
  forEach banner console_log ;;
  analyzeSizes this fs ;;
  checkMissingFiles this fs ;;
  analyzeLayoutPatterns this fs ;;
  generateRecommendations ;;
  get_issues.

Definition completion_line : string :=
  nl ++ "🎯 Visual analysis complete! Ready for fixes." ++ nl.
End report.

(** [analyzer.analyze().then(() => console.log(...)).catch(console.error)],
    run on a fresh instance. *)
Definition main (fs : FileSystem) : State :=
  let analyzer := constructor in
  match analyze analyzer fs fresh with
  | (Ok _, st) => (console_log completion_line st).2
  | (Throw e, st) => (console_error e st).2
  end.

(** ** Vocabulary of the statements *)

(** The issues a computation pushes when it is run from [st]. *)
Definition appended {A} (m : M A) (st : State) : list Issue :=
  drop (length (issues st)) (issues (m st).2).

(** [m] returns [a], pushes the issues [new] and logs the lines [out],
    whatever the state it starts from. *)
Definition emits {A} (m : M A) (a : A) (new : list Issue) (out : list string) : Prop :=
  ∀ st, m st = (Ok a, mkState (issues st ++ new) (stdout st ++ out) (stderr st)).

(** [sub] is a substring of [s]. *)
Definition occurs_in (sub s : string) : Prop := ∃ pre post, s = pre ++ sub ++ post.

(** One step of the inner loop of [analyzeSizes], on the size map of [page]. *)
Definition record_step (this : VisualAnalyzer) (fs : FileSystem) (page : string)
    (pageSizes : gmap string N) (d : string) : gmap string N :=
  match lookup_path fs (path_join (baselinesDir this) (baseline_name d page)) with
  | Some n => set_property pageSizes d (to_double n)
  | None => pageSizes
  end.

(** The sizes on record for [page]: one entry per configured device whose
    baseline file exists (none for a device named [__proto__]), holding the
    number that [fs.Stats.size] gives for the file. *)
Definition recorded (this : VisualAnalyzer) (fs : FileSystem) (page : string)
    : gmap string N :=
  foldl (record_step this fs page) ∅ (devices this).

(** What the second loop of [analyzeSizes] pushes for one list entry. *)
Definition page_issues (this : VisualAnalyzer) (pageSizes : gmap string N)
    (page : string) : list Issue :=
  let sizes_array := (map_to_list pageSizes).*2 in
  let ratio := div (Math_max sizes_array) (Math_min sizes_array) in
  (if (size pageSizes <? 4)%nat then [missing_device_support this page pageSizes] else [])
  ++ (if (1 <? size pageSizes)%nat && gt ratio 3
      then [layout_inconsistency page ratio pageSizes] else []).

(** What Phase 1 pushes: the issues of every entry of the page list. *)
Definition size_issues (this : VisualAnalyzer) (fs : FileSystem) : list Issue :=
  p ← pages this; page_issues this (recorded this fs p) p.

(** What Phase 2 pushes for one (device, page) pair. *)
Definition absent_issue (this : VisualAnalyzer) (fs : FileSystem) (d p : string)
    : list Issue :=
  if existsSync fs (path_join (baselinesDir this) (baseline_name d p))
  then [] else [missing_baseline d p (baseline_name d p)].

(** What Phase 2 pushes: one issue per (device, page) pair without a
    baseline file, devices outer, pages inner. *)
Definition missing_issues (this : VisualAnalyzer) (fs : FileSystem) : list Issue :=
  d ← devices this; p ← pages this; absent_issue this fs d p.

(** What Phase 3 pushes when the directory holds [entries]. *)
Definition pattern_issues (entries : gmap string N) : list Issue :=
  let listing := (map_to_list entries).*1 in
  (if (length (filter (λ file, is_mobile_nav file = true) listing) =? 0)%nat
   then [mobile_nav_missing] else [])
  ++ (if (length (filter (λ file, is_homepage file = true) listing) <? 4)%nat
      then [incomplete_homepage_testing] else []).

(** The summary block for the issue list [all]. *)
Definition summary_of (this : VisualAnalyzer) (all : list Issue) : list string :=
  summary this (length (filter (has_severity HIGH) all))
               (length (filter (has_severity MEDIUM) all))
               (length all).

Definition high_or_medium (i : Issue) : Prop := severity i = HIGH ∨ severity i = MEDIUM.

(** [m] only writes to the console. *)
Definition logs (m : M unit) : Prop :=
  ∀ st, ∃ out, m st = (Ok (), mkState (issues st) (stdout st ++ out) (stderr st)).

(** Run from a state whose issue list is [all], [m] only writes to the
    console, and the last thing it writes is the summary block of [all]. *)
Definition reports (this : VisualAnalyzer) (all : list Issue) (m : M unit) : Prop :=
  ∀ st, issues st = all →
    ∃ body, m st = (Ok (), mkState all (stdout st ++ body ++ summary_of this all) (stderr st)).

Definition is_max (mx : N) (pageSizes : gmap string N) : Prop :=
  (∃ d, pageSizes !! d = Some mx) ∧ ∀ d n, pageSizes !! d = Some n → (n ≤ mx)%N.

Definition is_min (mn : N) (pageSizes : gmap string N) : Prop :=
  (∃ d, pageSizes !! d = Some mn) ∧ ∀ d n, pageSizes !! d = Some n → (mn ≤ n)%N.

(** Sizes that [fs.Stats.size] reports exactly. *)
Definition safe_sizes (pageSizes : gmap string N) : Prop :=
  ∀ d n, pageSizes !! d = Some n → (n < 2 ^ 53)%N.

(** The local object [sizes] once the first loop of [analyzeSizes] is over:
    page names are its keys, a repeated name is one key. *)
Definition sizes_object (this : VisualAnalyzer) (fs : FileSystem)
    : gmap string (gmap string N) :=
  foldl (λ sizes page, <[page := recorded this fs page]> sizes) ∅ (pages this).

(** Example directories. *)
Definition in_baselines (entries : gmap string N) : FileSystem :=
  {[ "visual-tests/baselines" := entries ]}.

Definition fs_empty : FileSystem := in_baselines ∅.

Definition sizes_100_300 : gmap string N :=
  {[ "Mobile-addpagehere-baseline.png" := 100%N;
     "Desktop-addpagehere-baseline.png" := 300%N ]}.
Definition fs_100_300 : FileSystem := in_baselines sizes_100_300.

Definition sizes_100_301 : gmap string N :=
  {[ "Mobile-addpagehere-baseline.png" := 100%N;
     "Desktop-addpagehere-baseline.png" := 301%N ]}.
Definition fs_100_301 : FileSystem := in_baselines sizes_100_301.

Definition desktop_only : gmap string N :=
  {[ "Desktop-home-baseline.png" := 2048%N ]}.
Definition fs_desktop_only : FileSystem := in_baselines desktop_only.

Definition with_navbar : gmap string N :=
  {[ "Desktop-home-baseline.png" := 2048%N;
     "Mobile-navbar-baseline.png" := 1024%N ]}.
Definition fs_with_navbar : FileSystem := in_baselines with_navbar.

Definition homepage_3 : gmap string N :=
  {[ "Mobile-homepage-baseline.png" := 1024%N;
     "Tablet-homepage-baseline.png" := 1024%N;
     "Desktop-homepage-baseline.png" := 1024%N ]}.
Definition fs_homepage_3 : FileSystem := in_baselines homepage_3.

Definition homepage_4 : gmap string N :=
  {[ "Mobile-homepage-baseline.png" := 1024%N;
     "Mobile-Large-homepage-baseline.png" := 1024%N;
     "Tablet-homepage-baseline.png" := 1024%N;
     "Desktop-homepage-baseline.png" := 1024%N ]}.
Definition fs_homepage_4 : FileSystem := in_baselines homepage_4.

(** An empty file where a screenshot should be. *)
Definition empty_file : gmap string N :=
  {[ "Mobile-addpagehere-baseline.png" := 0%N ]}.
Definition fs_empty_file : FileSystem := in_baselines empty_file.

(** ** Vocabulary of the further properties *)

(** The baseline file of device [d] for page [pg] exists. *)
Definition has_baseline (this : VisualAnalyzer) (fs : FileSystem) (pg d : string) : Prop :=
  is_Some (lookup_path fs (path_join (baselinesDir this) (baseline_name d pg))).

Global Instance has_baseline_dec this fs pg d : Decision (has_baseline this fs pg d).
Proof. unfold has_baseline. apply _. Defined.

(** Configurations as an operator may edit them: three devices, five devices. *)
Definition three_devices : VisualAnalyzer := {|
  baselinesDir := "visual-tests/baselines";
  devices := ["Mobile"; "Tablet"; "Desktop"];
  pages := ["home"]
|}.

Definition five_devices : VisualAnalyzer := {|
  baselinesDir := "visual-tests/baselines";
  devices := ["Mobile"; "Mobile-Large"; "Tablet"; "Desktop"; "Desktop-Wide"];
  pages := ["home"]
|}.

Definition home_3 : gmap string N :=
  {[ "Mobile-home-baseline.png" := 1000%N;
     "Tablet-home-baseline.png" := 1500%N;
     "Desktop-home-baseline.png" := 2000%N ]}.
Definition fs_home_3 : FileSystem := in_baselines home_3.

Definition home_4 : gmap string N :=
  {[ "Mobile-home-baseline.png" := 1000%N;
     "Mobile-Large-home-baseline.png" := 1200%N;
     "Tablet-home-baseline.png" := 1500%N;
     "Desktop-home-baseline.png" := 2000%N ]}.
Definition fs_home_4 : FileSystem := in_baselines home_4.

Definition sizes_0_500 : gmap string N :=
  {[ "Mobile-addpagehere-baseline.png" := 0%N;
     "Desktop-addpagehere-baseline.png" := 500%N ]}.
Definition fs_0_500 : FileSystem := in_baselines sizes_0_500.

Definition sizes_100_400 : gmap string N :=
  {[ "Mobile-addpagehere-baseline.png" := 100%N;
     "Desktop-addpagehere-baseline.png" := 400%N ]}.
Definition fs_100_400 : FileSystem := in_baselines sizes_100_400.

(** The severity each rule gives to its issues. *)
Definition expected_severity (t : IssueType) : Severity :=
  match t with
  | MISSING_DEVICE_SUPPORT | MISSING_BASELINE | MOBILE_NAV_MISSING => HIGH
  | LAYOUT_INCONSISTENCY | INCOMPLETE_HOMEPAGE_TESTING => MEDIUM
  end.

(** The properties an issue of each type carries. *)
Definition well_formed (i : Issue) : Prop :=
  severity i = expected_severity (type i) ∧
  match type i with
  | MISSING_DEVICE_SUPPORT =>
      is_Some (page i) ∧ device i = None ∧ is_Some (devices_of i)
      ∧ sizes_of i = None ∧ filename i = None
  | LAYOUT_INCONSISTENCY =>
      is_Some (page i) ∧ device i = None ∧ devices_of i = None
      ∧ is_Some (sizes_of i) ∧ filename i = None
  | MISSING_BASELINE =>
      ∃ d p, page i = Some p ∧ device i = Some d ∧ devices_of i = None
             ∧ sizes_of i = None ∧ filename i = Some (d ++ "-" ++ p ++ "-baseline.png")
  | MOBILE_NAV_MISSING | INCOMPLETE_HOMEPAGE_TESTING =>
      page i = None ∧ device i = None ∧ devices_of i = None
      ∧ sizes_of i = None ∧ filename i = None
  end.

(** The directory of [fs_100_301] next to an unrelated one. *)
Definition fs_with_other : FileSystem :=
  <[ "visual-tests/diffs" := {[ "Mobile-nav-homepage-baseline.png" := 7%N ]} ]> fs_100_301.

(** A baseline directory with the screenshots of 'addpagehere' for Mobile
    and Desktop, of the given byte sizes. *)
Definition fs_sizes (mobile desktop : N) : FileSystem :=
  in_baselines {[ "Mobile-addpagehere-baseline.png" := mobile;
                  "Desktop-addpagehere-baseline.png" := desktop ]}.





(** The descriptions of the LAYOUT_INCONSISTENCY issues among [l]. *)
Definition layout_descriptions (l : list Issue) : list string :=
  description <$> filter (λ i, type i = LAYOUT_INCONSISTENCY) l.

(** A device named like the prototype accessor, with all four baselines. *)
Definition proto_device : VisualAnalyzer := {|
  baselinesDir := "visual-tests/baselines";
  devices := ["Mobile"; "Tablet"; "Desktop"; "__proto__"];
  pages := ["home"]
|}.

Definition home_proto : gmap string N :=
  {[ "Mobile-home-baseline.png" := 1000%N;
     "Tablet-home-baseline.png" := 1500%N;
     "Desktop-home-baseline.png" := 2000%N;
     "__proto__-home-baseline.png" := 1200%N ]}.
Definition fs_home_proto : FileSystem := in_baselines home_proto.

(** Devices named like methods that every object inherits; only Mobile has a
    baseline. *)
Definition inherited_devices : VisualAnalyzer := {|
  baselinesDir := "visual-tests/baselines";
  devices := ["Mobile"; "toString"; "constructor"];
  pages := ["home"]
|}.

Definition fs_mobile_home : FileSystem :=
  in_baselines {[ "Mobile-home-baseline.png" := 1000%N ]}.

(** A device name that leads out of the baseline directory. *)
Definition outside_device : VisualAnalyzer := {|
  baselinesDir := "visual-tests/baselines";
  devices := ["../diffs/Mobile"];
  pages := ["nav-homepage"]
|}.

(** ** Running the monad *)

Lemma state_eta st : mkState (issues st) (stdout st) (stderr st) = st.
Proof. by destruct st. Qed.

Lemma emits_ret {A} (a : A) : emits (ret a) a [] [].
Proof. intros st. unfold ret. by rewrite !app_nil_r, state_eta. Qed.

Lemma emits_bind {A B} (m : M A) (k : A → M B) a b i1 i2 o1 o2 :
  emits m a i1 o1 → emits (k a) b i2 o2 → emits (bind m k) b (i1 ++ i2) (o1 ++ o2).
Proof.
  intros Hm Hk st. unfold bind. rewrite Hm, Hk. simpl. by rewrite !app_assoc.
Qed.

Lemma emits_bind_silent {A B} (m : M A) (k : A → M B) a b new out :
  emits m a [] [] → emits (k a) b new out → emits (bind m k) b new out.
Proof. intros Hm Hk. by apply (emits_bind m k a b [] new [] out). Qed.

Lemma emits_bind_quiet {A B} (m : M A) (k : A → M B) a b i1 i2 :
  emits m a i1 [] → emits (k a) b i2 [] → emits (bind m k) b (i1 ++ i2) [].
Proof. intros Hm Hk. by apply (emits_bind m k a b i1 i2 [] []). Qed.

Lemma emits_push i : emits (push i) () [i] [].
Proof. intros st. unfold push. by rewrite app_nil_r. Qed.

Lemma emits_log line : emits (console_log line) () [] [line].
Proof. intros st. unfold console_log. by rewrite app_nil_r. Qed.

Lemma emits_when b m new out :
  emits m () new out →
  emits (when b m) () (if b then new else []) (if b then out else []).
Proof. intros Hm. destruct b; [done | apply emits_ret]. Qed.

Lemma emits_when_push b i : emits (when b (push i)) () (if b then [i] else []) [].
Proof. destruct b; [apply emits_push | apply emits_ret]. Qed.

Lemma emits_eq {A} (m : M A) a i i' o o' :
  emits m a i o → i = i' → o = o' → emits m a i' o'.
Proof. by intros H <- <-. Qed.

Lemma emits_forEach {A} (l : list A) (f : A → M unit) gi go :
  (∀ x, x ∈ l → emits (f x) () (gi x) (go x)) →
  emits (forEach l f) () (l ≫= gi) (l ≫= go).
Proof.
  induction l as [|x l IH]; intros Hf.
  - apply emits_ret.
  - rewrite !bind_cons. cbn [forEach]. eapply emits_bind.
    + apply Hf. left.
    + apply IH. intros y Hy. apply Hf. by right.
Qed.

Lemma bind_const_nil {A B} (l : list A) : l ≫= (λ _, []) = ([] : list B).
Proof. induction l as [|x l IH]; [done|]. rewrite bind_cons, IH. done. Qed.

Lemma bind_unit_id {A} (l : list A) : l ≫= (λ x, [x]) = l.
Proof. induction l as [|x l IH]; [done|]. rewrite bind_cons, IH. done. Qed.

Lemma emits_appended {A} (m : M A) a new out st :
  emits m a new out → appended m st = new.
Proof.
  intros Hm. unfold appended. rewrite Hm. simpl. by rewrite drop_app_length.
Qed.

Lemma emits_silent {A} (m : M A) a st : emits m a [] [] → m st = (Ok a, st).
Proof. intros Hm. rewrite Hm. by rewrite !app_nil_r, state_eta. Qed.

(** ** Phase 1: size analysis *)

Section phase1.
Variable this : VisualAnalyzer.
Variable fs : FileSystem.

Lemma record_size_emits page sizes pageSizes d :
  sizes !! page = Some pageSizes →
  emits (record_size this fs page sizes d) (<[page := record_step this fs page pageSizes d]> sizes) [] [].
Proof.
  intros Hp. unfold record_size, existsSync, statSync, record_step.
  destruct (lookup_path fs _) as [n|].
  - eapply emits_bind_silent; [apply emits_ret|]. simpl. rewrite Hp. apply emits_ret.
  - rewrite insert_id by done. apply emits_ret.
Qed.

Lemma record_sizes_emits page devs : ∀ sizes pageSizes,
  sizes !! page = Some pageSizes →
  emits (forEach_acc devs sizes (record_size this fs page))
        (<[page := foldl (record_step this fs page) pageSizes devs]> sizes) [] [].
Proof.
  induction devs as [|d devs IH]; intros sizes pageSizes Hp; simpl.
  - rewrite insert_id by done. apply emits_ret.
  - eapply emits_bind_silent; [by apply record_size_emits|].
    pose proof (IH (<[page := record_step this fs page pageSizes d]> sizes) (record_step this fs page pageSizes d)
                   (lookup_insert_eq sizes page _)) as H.
    by rewrite insert_insert_eq in H.
Qed.

Lemma collect_pages_emits ps : ∀ sizes,
  emits (forEach_acc ps sizes (λ sizes page,
           forEach_acc (devices this) (<[page := ∅]> sizes) (record_size this fs page)))
        (foldl (λ sizes page, <[page := recorded this fs page]> sizes) sizes ps) [] [].
Proof.
  induction ps as [|page ps IH]; intros sizes; simpl.
  - apply emits_ret.
  - eapply emits_bind_silent; [|apply IH].
    pose proof (record_sizes_emits page (devices this) (<[page := ∅]> sizes) ∅
                  (lookup_insert_eq sizes page ∅)) as H.
    by rewrite insert_insert_eq in H.
Qed.

Lemma collect_sizes_emits : emits (collect_sizes this fs) (sizes_object this fs) [] [].
Proof. apply collect_pages_emits. Qed.

Lemma lookup_foldl_insert {V} (g : string → V) (l : list string) page :
  ∀ acc : gmap string V,
  foldl (λ acc p, <[p := g p]> acc) acc l !! page
  = if decide (page ∈ l) then Some (g page) else acc !! page.
Proof.
  induction l as [|p l IH]; intros acc; cbn [foldl].
  - case_decide; [set_solver | done].
  - rewrite IH. destruct (decide (page = p)) as [->|Hne].
    + destruct (decide (p ∈ p :: l)) as [_|[]]; [|left].
      destruct (decide (p ∈ l)); [done|]. by rewrite lookup_insert_eq.
    + rewrite lookup_insert_ne by done.
      destruct (decide (page ∈ l)) as [Hin|Hnin].
      * destruct (decide (page ∈ p :: l)) as [_|Hn]; [done|].
        exfalso. apply Hn. by right.
      * destruct (decide (page ∈ p :: l)) as [Hy|_]; [|done].
        apply elem_of_cons in Hy as [?|?]; done.
Qed.

Lemma lookup_sizes_object page :
  page ∈ pages this → sizes_object this fs !! page = Some (recorded this fs page).
Proof.
  intros Hin. unfold sizes_object.
  rewrite (lookup_foldl_insert (recorded this fs)). by case_decide.
Qed.

Lemma dom_sizes_object : dom (sizes_object this fs) = list_to_set (pages this).
Proof.
  apply set_eq. intros page. rewrite elem_of_dom, elem_of_list_to_set.
  unfold sizes_object. rewrite (lookup_foldl_insert (recorded this fs)).
  case_decide; [by split; eauto|]. rewrite lookup_empty. split; [by intros [? ?]|done].
Qed.

Lemma check_page_emits sizes page pageSizes :
  sizes !! page = Some pageSizes →
  emits (check_page this sizes page) () (page_issues this pageSizes page) [].
Proof.
  intros Hp. unfold check_page, page_issues. rewrite Hp.
  rewrite length_fmap, length_map_to_list.
  eapply emits_bind_quiet.
  - replace ([] : list string) with (if (size pageSizes <? 4)%nat then [] else [] : list string)
      by (by destruct (_ <? _)%nat).
    apply emits_when, emits_push.
  - destruct (1 <? size pageSizes)%nat; simpl; [|apply emits_ret].
    replace ([] : list string) with
      (if gt (div (Math_max (map_to_list pageSizes).*2) (Math_min (map_to_list pageSizes).*2)) 3
       then [] else [] : list string) by (by destruct (gt _ _)).
    apply emits_when, emits_push.
Qed.

(** The run of [analyzeSizes]: it never throws, and pushes the issues of
    every entry of the page list, in order. *)
Lemma analyzeSizes_run st :
  let new := pages this ≫= (λ page, page_issues this (recorded this fs page) page) in
  analyzeSizes this fs st =
    (Ok (), mkState (issues st ++ new)
                    (stdout st ++ [
                       "📏 Analyzing screenshot file sizes across devices...";
                       "OK--> Size analysis complete. Found "
                         ++ pretty (length (issues st ++ new))
                         ++ " potential issues." ++ nl])
                    (stderr st)).
Proof.
  intros new. unfold analyzeSizes, bind at 1.
  rewrite (emits_log _ st). simpl. unfold bind at 1.
  rewrite (emits_silent _ _ _ collect_sizes_emits). unfold bind at 1.
  assert (emits (forEach (pages this) (check_page this (sizes_object this fs))) () new
            (pages this ≫= (λ _, []))) as Hloop.
  { apply emits_forEach. intros page Hin. apply check_page_emits.
    by apply lookup_sizes_object. }
  rewrite Hloop. cbn -[pretty]. unfold bind, get_issues, console_log. cbn -[pretty].
  rewrite bind_const_nil.
  by rewrite !app_nil_r, <-!app_assoc.
Qed.
End phase1.

(** ** The ratio test

    [max / min > 3] on the rounded quotient decides [max > 3 * min] on the
    integers, for byte sizes that a number holds exactly. *)

Section arithmetic.
Local Open Scope Z_scope.

Lemma pow2_ge_51 k : 0 <= k → 2 ^ 52 <= 3 * 2 ^ k → 2 ^ 51 <= 2 ^ k.
Proof.
  intros Hk H. destruct (Z_lt_le_dec k 51) as [Hlt|Hge].
  - assert (2 ^ k <= 2 ^ 50) by (apply Z.pow_le_mono_r; lia). lia.
  - apply Z.pow_le_mono_r; lia.
Qed.

Lemma round_core a b d :
  0 < b → 0 < a < 2 ^ 53 → 0 < d →
  (2 ^ 52 <= 3 * d → 2 ^ 51 <= d) →
  2 ^ 52 * b <= a * d →
  let q := a * d / b in
  let r := (a * d) mod b in
  let up := (b <? 2 * r) || ((2 * r =? b) && Z.odd q) in
  3 * d < (if up then q + 1 else q) ↔ 3 * b < a.
Proof.
  intros Hb Ha Hd Hpow Hlow q r up.
  assert (a * d = b * q + r) as Hn by (apply Z.div_mod; lia).
  assert (0 <= r < b) as Hr by (apply Z.mod_pos_bound; lia).
  assert (2 ^ 52 <= q) as Hq52 by (apply Z.div_le_lower_bound; lia).
  clearbody q r. split.
  - intros Hm. destruct (Z_lt_le_dec (3 * b) a) as [|Hle]; [assumption|exfalso].
    assert (a * d <= 3 * b * d) by nia.
    assert (q <= 3 * d) by nia.
    subst up. destruct (_ || _) eqn:Hup; [|lia].
    assert (q = 3 * d) by lia. assert (r = 0) as Hr0 by nia.
    rewrite Hr0 in Hup.
    apply orb_true_iff in Hup as [Hup|Hup].
    + apply Z.ltb_lt in Hup. lia.
    + apply andb_true_iff in Hup as [Hup _]. apply Z.eqb_eq in Hup. lia.
  - intros Hab.
    assert (3 * b * d + d <= a * d) by nia.
    assert (3 * d <= q) by nia.
    destruct (Z_lt_le_dec (3 * d) q) as [|Hq]; [subst up; destruct (_ || _); lia|].
    assert (q = 3 * d) as Hq3 by lia.
    assert (d <= r) by nia.
    assert (2 ^ 51 <= d) by (apply Hpow; lia).
    assert (b < 2 * r) as Hbr.
    { change (2 ^ 53) with 9007199254740992 in Ha.
      change (2 ^ 51) with 2251799813685248 in *. lia. }
    apply Z.ltb_lt in Hbr. subst up. rewrite Hbr. cbn [orb]. lia.
Qed.

Lemma round_div_safe a b :
  0 < a < 2 ^ 53 → 0 < b < 2 ^ 53 →
  round_div a b =
    (let e0 := Z.log2 a - Z.log2 b - 52 in
     let e := if a * 2 ^ (- e0) / b <? 2 ^ 52 then e0 - 1 else e0 in
     let n := a * 2 ^ (- e) in
     let q := n / b in
     let r := n mod b in
     let up := (b <? 2 * r) || ((2 * r =? b) && Z.odd q) in
     (if up then q + 1 else q, e)).
Proof.
  intros Ha Hb. unfold round_div, round_at, scaled. cbv zeta.
  assert (Z.log2 a < 53) as Hla by (apply Z.log2_lt_pow2; lia).
  assert (Z.log2 b < 53) as Hlb by (apply Z.log2_lt_pow2; lia).
  pose proof (Z.log2_nonneg a) as Hla0.
  pose proof (Z.log2_nonneg b) as Hlb0.
  set (e0 := Z.log2 a - Z.log2 b - 52).
  assert (-104 ≤ e0 ≤ 0) as He0 by (unfold e0; lia).
  replace (e0 <=? 0) with true by (symmetry; apply Z.leb_le; lia).
  set (e := if a * 2 ^ (- e0) / b <? 2 ^ 52 then e0 - 1 else e0).
  assert (-105 ≤ e ≤ 0) as He by (unfold e; destruct (_ <? _); lia).
  rewrite Z.max_l by lia.
  replace (e <=? 0) with true by (symmetry; apply Z.leb_le; lia).
  done.
Qed.

Lemma round_div_gt3 a b m e :
  0 < a < 2 ^ 53 → 0 < b < 2 ^ 53 → round_div a b = (m, e) →
  e <= 0 /\ (3 * 2 ^ (- e) < m ↔ 3 * b < a).
Proof.
  intros Ha Hb. rewrite round_div_safe by done. cbv zeta.
  pose proof (Z.log2_spec a ltac:(lia)) as Hla.
  pose proof (Z.log2_spec b ltac:(lia)) as Hlb.
  rewrite <-Z.add_1_r in Hla, Hlb.
  assert (Z.log2 a < 53) as Hla53 by (apply Z.log2_lt_pow2; lia).
  pose proof (Z.log2_nonneg a) as Hla0.
  pose proof (Z.log2_nonneg b) as Hlb0.
  set (la := Z.log2 a) in *. set (lb := Z.log2 b) in *.
  set (k0 := 52 + lb - la).
  replace (- (la - lb - 52)) with k0 by (unfold k0; lia).
  assert (0 <= k0) as Hk0 by (unfold k0; lia).
  assert (2 ^ la * 2 ^ k0 = 2 ^ 52 * 2 ^ lb) as Hlow.
  { rewrite <-!Z.pow_add_r by lia. f_equal. unfold k0. lia. }
  assert (2 ^ (la + 1) * 2 ^ k0 = 2 ^ 53 * 2 ^ lb) as Hhigh.
  { rewrite <-!Z.pow_add_r by lia. f_equal. unfold k0. lia. }
  assert (2 ^ (lb + 1) = 2 * 2 ^ lb) as Hlb1.
  { rewrite Z.pow_add_r by lia. lia. }
  assert (0 < 2 ^ k0) as Hp0 by (apply Z.pow_pos_nonneg; lia).
  assert (0 < 2 ^ lb) as Hplb by (apply Z.pow_pos_nonneg; lia).
  assert (2 ^ 52 * 2 ^ lb <= a * 2 ^ k0) as Hge by nia.
  destruct (a * 2 ^ k0 / b <? 2 ^ 52) eqn:Hq0.
  - apply Z.ltb_lt in Hq0.
    replace (- (la - lb - 52 - 1)) with (k0 + 1) by (unfold k0; lia).
    intros Heq. injection Heq as Hm He. split; [lia|].
    subst m. replace (- e) with (k0 + 1) by lia.
    apply round_core; [lia | lia | apply Z.pow_pos_nonneg; lia | |].
    + intros H. apply pow2_ge_51; [lia|exact H].
    + rewrite Z.pow_add_r by lia. change (2 ^ 1) with 2. nia.
  - apply Z.ltb_ge in Hq0.
    replace (- (la - lb - 52)) with k0 by (unfold k0; lia).
    intros Heq. injection Heq as Hm He. split; [lia|].
    subst m. replace (- e) with k0 by lia.
    apply round_core; [lia | lia | lia | |].
    + intros H. apply pow2_ge_51; [lia|exact H].
    + pose proof (Z.mul_div_le (a * 2 ^ k0) b ltac:(lia)). nia.
Qed.

Lemma round_div_normal a b m e :
  0 < a < 2 ^ 53 → 0 < b < 2 ^ 53 → round_div a b = (m, e) →
  ∃ j, 0 ≤ j ∧ e = - j ∧ 2 ^ 52 * b ≤ a * 2 ^ j < 2 ^ 53 * b
       ∧ m = (if (b <? 2 * ((a * 2 ^ j) mod b))
                 || ((2 * ((a * 2 ^ j) mod b) =? b) && Z.odd (a * 2 ^ j / b))
              then a * 2 ^ j / b + 1 else a * 2 ^ j / b).
Proof.
  intros Ha Hb. rewrite round_div_safe by done. cbv zeta.
  pose proof (Z.log2_spec a ltac:(lia)) as Hla.
  pose proof (Z.log2_spec b ltac:(lia)) as Hlb.
  rewrite <-Z.add_1_r in Hla, Hlb.
  assert (Z.log2 a < 53) as Hla53 by (apply Z.log2_lt_pow2; lia).
  pose proof (Z.log2_nonneg a) as Hla0.
  pose proof (Z.log2_nonneg b) as Hlb0.
  set (la := Z.log2 a) in *. set (lb := Z.log2 b) in *.
  set (k0 := 52 + lb - la).
  replace (- (la - lb - 52)) with k0 by (unfold k0; lia).
  assert (0 ≤ k0) as Hk0 by (unfold k0; lia).
  assert (2 ^ la * 2 ^ k0 = 2 ^ 52 * 2 ^ lb) as Hlow.
  { rewrite <-!Z.pow_add_r by lia. f_equal. unfold k0. lia. }
  assert (2 ^ (la + 1) * 2 ^ k0 = 2 ^ 53 * 2 ^ lb) as Hhigh.
  { rewrite <-!Z.pow_add_r by lia. f_equal. unfold k0. lia. }
  assert (2 ^ (lb + 1) = 2 * 2 ^ lb) as Hlb1.
  { rewrite Z.pow_add_r by lia. lia. }
  assert (0 < 2 ^ k0) as Hp0 by (apply Z.pow_pos_nonneg; lia).
  assert (0 < 2 ^ lb) as Hplb by (apply Z.pow_pos_nonneg; lia).
  assert (2 ^ 52 * 2 ^ lb ≤ a * 2 ^ k0) as Hge by nia.
  assert (a * 2 ^ k0 < 2 ^ 53 * 2 ^ lb) as Hlt by nia.
  destruct (a * 2 ^ k0 / b <? 2 ^ 52) eqn:Hq0.
  - apply Z.ltb_lt in Hq0.
    replace (- (la - lb - 52 - 1)) with (k0 + 1) by (unfold k0; lia).
    intros Heq. injection Heq as Hm He. exists (k0 + 1).
    split; [lia|]. split; [lia|]. split; [|done].
    rewrite Z.pow_add_r by lia. change (2 ^ 1) with 2.
    assert (a * 2 ^ k0 < 2 ^ 52 * b).
    { pose proof (Z.mul_succ_div_gt (a * 2 ^ k0) b ltac:(lia)). nia. }
    nia.
  - apply Z.ltb_ge in Hq0.
    replace (- (la - lb - 52)) with k0 by (unfold k0; lia).
    intros Heq. injection Heq as Hm He. exists k0.
    split; [lia|]. split; [lia|]. split; [|done].
    pose proof (Z.mul_div_le (a * 2 ^ k0) b ltac:(lia)). nia.
Qed.

Lemma div_safe (a b : N) :
  (0 < a < 2 ^ 53)%N → (0 < b < 2 ^ 53)%N →
  ∃ m e, div a b = Finite m e ∧ round_div (Z.of_N a) (Z.of_N b) = (m, e).
Proof.
  intros Ha Hb. unfold div.
  destruct (N.eqb_spec b 0) as [|_]; [lia|].
  destruct (N.eqb_spec a 0) as [|_]; [lia|].
  destruct (round_div (Z.of_N a) (Z.of_N b)) as [m e] eqn:Hr.
  exists m, e. split; [|done].
  assert (0 < Z.of_N a < 2 ^ 53) as Ha' by (change (2 ^ 53) with (Z.of_N (2 ^ 53)); lia).
  assert (0 < Z.of_N b < 2 ^ 53) as Hb' by (change (2 ^ 53) with (Z.of_N (2 ^ 53)); lia).
  apply round_div_normal in Hr as (j & Hj & -> & Hn & ->); [|done..].
  rewrite Z.max_l, Z.pow_0_r, Z.mul_1_r by lia.
  set (n := Z.of_N a * 2 ^ j) in *. set (b' := Z.of_N b) in *.
  assert (n / b' < 2 ^ 53) as Hq by (apply Z.div_lt_upper_bound; lia).
  assert (2 ^ 53 + 1 < 2 ^ 1024) as Hbig by (vm_compute; reflexivity).
  replace (2 ^ 1024 <=? _) with false; [done|].
  symmetry. apply Z.leb_gt. destruct (_ || _); lia.
Qed.

Lemma gt_div_3 (a b : N) :
  (a < 2 ^ 53)%N → (b < 2 ^ 53)%N → gt (div a b) 3 = true ↔ (3 * b < a)%N.
Proof.
  intros Ha Hb.
  destruct (N.eqb_spec b 0) as [->|Hb0].
  { unfold div. destruct (N.eqb_spec a 0) as [->|Ha0]; simpl; split; (done || lia). }
  destruct (N.eqb_spec a 0) as [->|Ha0].
  { unfold div. destruct (N.eqb_spec b 0); [done|]. simpl. split; [done|lia]. }
  destruct (div_safe a b) as (m & e & -> & Hr); [lia..|].
  apply round_div_gt3 in Hr as [He Hr].
  - unfold gt. rewrite Z.max_r, Z.max_l by lia.
    rewrite Z.pow_0_r, Z.mul_1_r, Z.ltb_lt, Hr. lia.
  - change (2 ^ 53) with (Z.of_N (2 ^ 53)). lia.
  - change (2 ^ 53) with (Z.of_N (2 ^ 53)). lia.
Qed.

(** The rounded significand is within half a unit of the exact one. *)
Lemma round_div_nearest a b m e :
  0 < a < 2 ^ 53 → 0 < b < 2 ^ 53 → round_div a b = (m, e) →
  e ≤ 0 ∧ 2 ^ 52 ≤ m ≤ 2 ^ 53 ∧ Z.abs (2 * (a * 2 ^ (- e) - m * b)) ≤ b.
Proof.
  intros Ha Hb Hr.
  apply round_div_normal in Hr as (j & Hj & -> & Hn & ->); [|done..].
  rewrite Z.opp_involutive.
  set (n := a * 2 ^ j) in *.
  assert (n = b * (n / b) + n mod b) as Hdm by (apply Z.div_mod; lia).
  assert (0 ≤ n mod b < b) as Hrm by (apply Z.mod_pos_bound; lia).
  assert (2 ^ 52 ≤ n / b) as Hq1 by (apply Z.div_le_lower_bound; lia).
  assert (n / b < 2 ^ 53) as Hq2 by (apply Z.div_lt_upper_bound; lia).
  set (q := n / b) in *. set (r := n mod b) in *. clearbody q r.
  split; [lia|].
  destruct ((b <? 2 * r) || ((2 * r =? b) && Z.odd q)) eqn:Hup.
  - assert (b ≤ 2 * r) as Hbr.
    { apply orb_true_iff in Hup as [Hup|Hup].
      - apply Z.ltb_lt in Hup. lia.
      - apply andb_true_iff in Hup as [Hup _]. apply Z.eqb_eq in Hup. lia. }
    split; [lia|]. replace (n - (q + 1) * b) with (r - b) by lia. lia.
  - assert (2 * r ≤ b) as Hbr.
    { apply orb_false_iff in Hup as [Hup _]. apply Z.ltb_ge in Hup. lia. }
    split; [lia|]. replace (n - q * b) with r by lia. lia.
Qed.



End arithmetic.

(** ** [Math.max], [Math.min] and the recorded sizes *)

Lemma foldl_max_spec (l : list N) : ∀ x,
  foldl N.max x l ∈ x :: l ∧ ∀ y, y ∈ x :: l → (y ≤ foldl N.max x l)%N.
Proof.
  induction l as [|z l IH]; intros x; simpl.
  - split; [left|]. intros y Hy. apply list_elem_of_singleton in Hy. lia.
  - destruct (IH (N.max x z)) as [Hin Hle]. split.
    + apply elem_of_cons in Hin as [Heq|Hin]; [|by do 2 right].
      rewrite Heq. destruct (N.max_spec x z) as [[_ ->]|[_ ->]]; [right|]; left.
    + intros y Hy.
      assert (N.max x z ≤ foldl N.max (N.max x z) l)%N as Hm by (apply Hle; left).
      apply elem_of_cons in Hy as [->|Hy]; [lia|].
      apply elem_of_cons in Hy as [->|Hy]; [lia|]. apply Hle. by right.
Qed.

Lemma foldl_min_spec (l : list N) : ∀ x,
  foldl N.min x l ∈ x :: l ∧ ∀ y, y ∈ x :: l → (foldl N.min x l ≤ y)%N.
Proof.
  induction l as [|z l IH]; intros x; simpl.
  - split; [left|]. intros y Hy. apply list_elem_of_singleton in Hy. lia.
  - destruct (IH (N.min x z)) as [Hin Hle]. split.
    + apply elem_of_cons in Hin as [Heq|Hin]; [|by do 2 right].
      rewrite Heq. destruct (N.min_spec x z) as [[_ ->]|[_ ->]]; [|right]; left.
    + intros y Hy.
      assert (foldl N.min (N.min x z) l ≤ N.min x z)%N as Hm by (apply Hle; left).
      apply elem_of_cons in Hy as [->|Hy]; [lia|].
      apply elem_of_cons in Hy as [->|Hy]; [lia|]. apply Hle. by right.
Qed.

Lemma elem_of_values (pageSizes : gmap string N) n :
  n ∈ (map_to_list pageSizes).*2 ↔ ∃ d, pageSizes !! d = Some n.
Proof.
  rewrite list_elem_of_fmap. split.
  - intros [[d n'] [-> Hin]]. exists d. by apply elem_of_map_to_list.
  - intros [d Hd]. exists (d, n). split; [done|]. by apply elem_of_map_to_list.
Qed.

Lemma values_nonempty (pageSizes : gmap string N) :
  (0 < size pageSizes)%nat → (map_to_list pageSizes).*2 ≠ [].
Proof.
  intros Hs Hnil. apply (f_equal length) in Hnil.
  rewrite length_fmap, length_map_to_list in Hnil. simpl in Hnil. lia.
Qed.

Lemma Math_max_is_max (pageSizes : gmap string N) :
  (0 < size pageSizes)%nat → is_max (Math_max (map_to_list pageSizes).*2) pageSizes.
Proof.
  intros Hs. apply values_nonempty in Hs.
  pose proof (elem_of_values pageSizes) as Hv.
  destruct ((map_to_list pageSizes).*2) as [|x l]; [done|]. simpl.
  destruct (foldl_max_spec l x) as [Hin Hle]. split.
  - by apply Hv.
  - intros d n Hd. apply Hle, Hv. eauto.
Qed.

Lemma Math_min_is_min (pageSizes : gmap string N) :
  (0 < size pageSizes)%nat → is_min (Math_min (map_to_list pageSizes).*2) pageSizes.
Proof.
  intros Hs. apply values_nonempty in Hs.
  pose proof (elem_of_values pageSizes) as Hv.
  destruct ((map_to_list pageSizes).*2) as [|x l]; [done|]. simpl.
  destruct (foldl_min_spec l x) as [Hin Hle]. split.
  - by apply Hv.
  - intros d n Hd. apply Hle, Hv. eauto.
Qed.

Lemma safe_sizes_values (pageSizes : gmap string N) :
  Forall (λ n, (n < 2 ^ 53)%N) (map_to_list pageSizes).*2 → safe_sizes pageSizes.
Proof.
  intros Hall d n Hd. rewrite Forall_forall in Hall. apply Hall, elem_of_values. eauto.
Qed.

Lemma is_max_unique pageSizes a b : is_max a pageSizes → is_max b pageSizes → a = b.
Proof.
  intros [[da Ha] Hla] [[db Hb] Hlb].
  apply Hlb in Ha. apply Hla in Hb. lia.
Qed.

Lemma is_min_unique pageSizes a b : is_min a pageSizes → is_min b pageSizes → a = b.
Proof.
  intros [[da Ha] Hla] [[db Hb] Hlb].
  apply Hlb in Ha. apply Hla in Hb. lia.
Qed.

Lemma to_double_safe n : (n < 2 ^ 53)%N → to_double n = n.
Proof. intros Hn. unfold to_double. by destruct (N.ltb_spec n (2 ^ 53)); [|lia]. Qed.


Lemma lookup_set_property (obj : gmap string N) key v d :
  set_property obj key v !! d
  = if decide (d = key ∧ key ≠ "__proto__") then Some v else obj !! d.
Proof.
  unfold set_property. destruct (decide (key = "__proto__")) as [->|Hk].
  - by destruct (decide _) as [[_ []]|_].
  - destruct (decide (d = key)) as [->|Hne].
    + rewrite lookup_insert_eq. by destruct (decide _) as [_|[]].
    + rewrite lookup_insert_ne by done. by destruct (decide _) as [[? _]|_].
Qed.

Lemma lookup_record_step this fs page (acc : gmap string N) x d :
  d ≠ x → record_step this fs page acc x !! d = acc !! d.
Proof.
  intros Hne. unfold record_step. destruct (lookup_path fs _); [|done].
  rewrite lookup_set_property. by destruct (decide _) as [[? _]|_].
Qed.

Lemma lookup_foldl_record this fs page d (l : list string) : ∀ acc : gmap string N,
  foldl (record_step this fs page) acc l !! d
  = if decide (d ∈ l ∧ d ≠ "__proto__")
    then match lookup_path fs (path_join (baselinesDir this) (baseline_name d page)) with
         | Some n => Some (to_double n)
         | None => acc !! d
         end
    else acc !! d.
Proof.
  induction l as [|x l IH]; intros acc; cbn [foldl].
  - destruct (decide _) as [[Hin _]|_]; [|done]. by apply elem_of_nil in Hin.
  - rewrite IH. destruct (decide (d = x)) as [->|Hne].
    + unfold record_step. destruct (decide (x = "__proto__")) as [->|Hx].
      * destruct (decide _) as [[_ []]|_]; [done|].
        destruct (decide _) as [[_ []]|_]; [done|].
        destruct (lookup_path fs _); [|done]. by rewrite lookup_set_property.
      * destruct (decide (x ∈ x :: l ∧ _)) as [_|[]]; [|split; [left|done]].
        destruct (lookup_path fs _) as [n|] eqn:Hl.
        -- rewrite lookup_set_property.
           destruct (decide (x = x ∧ _)) as [_|[]]; [|done]. by destruct (decide _).
        -- by destruct (decide _).
    + rewrite lookup_record_step by done.
      destruct (decide (d ∈ l ∧ _)) as [[Hin Hd]|Hnin].
      * destruct (decide (d ∈ x :: l ∧ _)) as [_|[]]; [done|]. split; [by right|done].
      * destruct (decide (d ∈ x :: l ∧ _)) as [[Hy Hd]|_]; [|done].
        apply elem_of_cons in Hy as [?|?]; [done|]. by destruct Hnin.
Qed.

(** A device has a size on record exactly when it is configured, is not
    named [__proto__] and its baseline file exists; the size is the number
    that holds the byte size of the file. *)
Lemma lookup_recorded this fs page d :
  recorded this fs page !! d =
    if decide (d ∈ devices this ∧ d ≠ "__proto__")
    then to_double <$> lookup_path fs (path_join (baselinesDir this) (baseline_name d page))
    else None.
Proof.
  unfold recorded. rewrite lookup_foldl_record, lookup_empty.
  destruct (decide _); [|done]. by destruct (lookup_path _ _).
Qed.

Lemma appended_analyzeSizes this fs st :
  appended (analyzeSizes this fs) st
  = pages this ≫= (λ page, page_issues this (recorded this fs page) page).
Proof.
  unfold appended. rewrite analyzeSizes_run. simpl. by rewrite drop_app_length.
Qed.

Lemma elem_of_page_issues this pageSizes page i :
  i ∈ page_issues this pageSizes page ↔
    ((size pageSizes < 4)%nat ∧ i = missing_device_support this page pageSizes) ∨
    ((1 < size pageSizes)%nat ∧
     let ratio := div (Math_max (map_to_list pageSizes).*2)
                      (Math_min (map_to_list pageSizes).*2) in
     gt ratio 3 = true ∧ i = layout_inconsistency page ratio pageSizes).
Proof.
  unfold page_issues. rewrite elem_of_app. cbv zeta.
  destruct (Nat.ltb_spec (size pageSizes) 4), (Nat.ltb_spec 1 (size pageSizes)),
    (gt _ 3); simpl; rewrite ?list_elem_of_singleton, ?elem_of_nil;
    intuition (try lia; try discriminate).
Qed.

Lemma page_issues_page this pageSizes p i :
  i ∈ page_issues this pageSizes p → page i = Some p.
Proof.
  rewrite elem_of_page_issues. by intros [[_ ->]|[_ [_ ->]]].
Qed.

(** C1, general part: on a page with at least two recorded sizes, all of
    them exact, Phase 1 pushes a LAYOUT_INCONSISTENCY issue for the page
    exactly when the greatest size exceeds three times the least one, that
    is when max / min > 3; the issue is MEDIUM, carries the size map and
    quotes the ratio with one decimal. *)
Lemma layout_inconsistency_general this fs st pg mn mx :
  pg ∈ pages this →
  (2 ≤ size (recorded this fs pg))%nat →
  safe_sizes (recorded this fs pg) →
  is_min mn (recorded this fs pg) →
  is_max mx (recorded this fs pg) →
  ((∃ i, i ∈ appended (analyzeSizes this fs) st
         ∧ type i = LAYOUT_INCONSISTENCY ∧ page i = Some pg)
   ↔ (3 * mn < mx)%N) ∧
  (∀ i, i ∈ appended (analyzeSizes this fs) st →
        type i = LAYOUT_INCONSISTENCY → page i = Some pg →
        severity i = MEDIUM ∧ sizes_of i = Some (recorded this fs pg) ∧
        description i = "Extreme content differences across devices ("
                        ++ toFixed1 (div mx mn) ++ "x variation)").
Proof.
  intros Hpage Hsize Hsafe Hmin Hmax. rewrite appended_analyzeSizes.
  set (ps := recorded this fs pg) in *.
  assert (Math_max (map_to_list ps).*2 = mx) as Emax.
  { eapply is_max_unique; [|done]. apply Math_max_is_max. lia. }
  assert (Math_min (map_to_list ps).*2 = mn) as Emin.
  { eapply is_min_unique; [|done]. apply Math_min_is_min. lia. }
  assert (gt (div mx mn) 3 = true ↔ (3 * mn < mx)%N) as Hgt.
  { destruct Hmin as [[dn Hdn] _], Hmax as [[dx Hdx] _].
    apply gt_div_3; eauto. }
  assert (∀ i, i ∈ (pages this ≫= λ p, page_issues this (recorded this fs p) p) →
               type i = LAYOUT_INCONSISTENCY → page i = Some pg →
               gt (div mx mn) 3 = true ∧ i = layout_inconsistency pg (div mx mn) ps) as Hinv.
  { intros i Hi Hty Hpg. apply list_elem_of_bind in Hi as (p & Hi & Hp).
    pose proof (page_issues_page _ _ _ _ Hi) as Hpg'.
    assert (p = pg) as -> by congruence. fold ps in Hi.
    apply elem_of_page_issues in Hi as [[_ ->]|[_ Hi]]; [done|].
    cbv zeta in Hi. by rewrite Emax, Emin in Hi. }
  split.
  - split.
    + intros (i & Hi & Hty & Hpg). apply Hgt. by eapply Hinv.
    + intros Hlt. apply Hgt in Hlt.
      exists (layout_inconsistency pg (div mx mn) ps). split; [|done].
      apply list_elem_of_bind. exists pg. split; [|done]. fold ps.
      apply elem_of_page_issues. right. split; [lia|]. cbv zeta.
      by rewrite Emax, Emin.
  - intros i Hi Hty Hpg. by destruct (Hinv i Hi Hty Hpg) as [_ ->].
Qed.




(** ** Phase 2: missing baselines *)

Section phase2.
Variable this : VisualAnalyzer.
Variable fs : FileSystem.

Lemma count_pages_emits d ps : ∀ missing,
  emits (forEach_acc ps missing (λ missing page,
           let filename := baseline_name d page in
           let filepath := path_join (baselinesDir this) filename in
           if negb (existsSync fs filepath) then
             push (missing_baseline d page filename) ;; ret (S missing)
           else ret missing))
        (missing + length (ps ≫= absent_issue this fs d))%nat (ps ≫= absent_issue this fs d) [].
Proof.
  induction ps as [|p ps IH]; intros missing.
  - simpl. rewrite Nat.add_0_r. apply emits_ret.
  - rewrite bind_cons. cbn [forEach_acc]. cbv zeta. unfold absent_issue at 1 3.
    destruct (existsSync fs _); cbn [negb].
    + eapply emits_bind_silent; [apply emits_ret|]. apply IH.
    + eapply emits_bind_quiet.
      * eapply (emits_bind_quiet _ _ () _ [_] []); [apply emits_push|apply emits_ret].
      * rewrite length_app. simpl length.
        replace (missing + (1 + length (ps ≫= absent_issue this fs d)))%nat
          with (S missing + length (ps ≫= absent_issue this fs d))%nat by lia.
        apply IH.
Qed.

Lemma count_devices_emits ds : ∀ missing,
  emits (forEach_acc ds missing (λ missing device,
           forEach_acc (pages this) missing (λ missing page,
             let filename := baseline_name device page in
             let filepath := path_join (baselinesDir this) filename in
             if negb (existsSync fs filepath) then
               push (missing_baseline device page filename) ;; ret (S missing)
             else ret missing)))
        (missing + length (ds ≫= λ d, pages this ≫= absent_issue this fs d))%nat
        (ds ≫= λ d, pages this ≫= absent_issue this fs d) [].
Proof.
  induction ds as [|d ds IH]; intros missing.
  - simpl. rewrite Nat.add_0_r. apply emits_ret.
  - rewrite bind_cons. cbn [forEach_acc]. eapply emits_bind_quiet.
    + apply count_pages_emits.
    + rewrite length_app, Nat.add_assoc. apply IH.
Qed.

(** The run of [checkMissingFiles]: it never throws. *)
Lemma checkMissingFiles_run st :
  checkMissingFiles this fs st =
    (Ok (), mkState (issues st ++ missing_issues this fs)
                    (stdout st ++ [
                       "📋 Checking for missing baseline files...";
                       "OK--> File check complete. "
                         ++ pretty (length (missing_issues this fs))
                         ++ " missing files." ++ nl])
                    (stderr st)).
Proof.
  unfold checkMissingFiles, bind at 1.
  rewrite (emits_log _ st). simpl. unfold bind at 1.
  rewrite (count_devices_emits (devices this) 0). cbn -[pretty].
  unfold console_log. cbn -[pretty].
  by rewrite !app_nil_r, <-!app_assoc.
Qed.
End phase2.

(** ** Phase 3: layout patterns *)

Section phase3.
Variable this : VisualAnalyzer.
Variable fs : FileSystem.

Lemma analyzeLayoutPatterns_emits entries :
  fs !! baselinesDir this = Some entries →
  emits (analyzeLayoutPatterns this fs) () (pattern_issues entries) [
    "🎨 Analyzing layout patterns for 2025 best practices...";
    "OK-> Pattern analysis complete." ++ nl].
Proof.
  intros Hdir. unfold analyzeLayoutPatterns, readdirSync. rewrite Hdir.
  eapply emits_eq.
  { eapply emits_bind; [apply emits_log|].
    eapply emits_bind; [apply emits_ret|]. cbv zeta.
    eapply emits_bind; [apply emits_when_push|].
    eapply emits_bind; [apply emits_ret|].
    eapply emits_bind; [apply emits_when_push|]. apply emits_log. }
  - unfold pattern_issues. by rewrite !app_nil_l, app_nil_r.
  - by rewrite !app_nil_l.
Qed.

(** The run of [analyzeLayoutPatterns] on a directory that exists. *)
Lemma analyzeLayoutPatterns_run st entries :
  fs !! baselinesDir this = Some entries →
  analyzeLayoutPatterns this fs st =
    (Ok (), mkState (issues st ++ pattern_issues entries)
                    (stdout st ++ [
                       "🎨 Analyzing layout patterns for 2025 best practices...";
                       "OK-> Pattern analysis complete." ++ nl])
                    (stderr st)).
Proof. intros Hdir. by apply analyzeLayoutPatterns_emits. Qed.

(** On a directory that does not exist the first listing throws. *)
Lemma analyzeLayoutPatterns_throws st :
  fs !! baselinesDir this = None →
  analyzeLayoutPatterns this fs st =
    (Throw (ENOENT "scandir" (baselinesDir this)),
     mkState (issues st)
             (stdout st ++ ["🎨 Analyzing layout patterns for 2025 best practices..."])
             (stderr st)).
Proof.
  intros Hdir. unfold analyzeLayoutPatterns, readdirSync.
  rewrite Hdir. by unfold bind, console_log, throw.
Qed.
End phase3.

(** ** Phase 4: recommendations *)

Lemma logs_ret : logs (ret ()).
Proof. intros st. exists []. by rewrite app_nil_r, state_eta. Qed.

Lemma logs_log line : logs (console_log line).
Proof. intros st. by exists [line]. Qed.

Lemma logs_bind (m : M unit) (k : unit → M unit) : logs m → logs (k ()) → logs (bind m k).
Proof.
  intros Hm Hk st. destruct (Hm st) as [o1 E1]. unfold bind. rewrite E1.
  destruct (Hk (mkState (issues st) (stdout st ++ o1) (stderr st))) as [o2 E2].
  rewrite E2. exists (o1 ++ o2)%list. simpl. by rewrite app_assoc.
Qed.

Lemma logs_when b m : logs m → logs (when b m).
Proof. intros Hm. destruct b; [done | apply logs_ret]. Qed.

Lemma logs_forEach {A} (l : list A) f : (∀ x, logs (f x)) → logs (forEach l f).
Proof.
  intros Hf. induction l as [|x l IH]; [apply logs_ret|]. by apply logs_bind.
Qed.

Lemma logs_forEach_i {A} (l : list A) f : (∀ x i, logs (f x i)) → ∀ i0, logs (forEach_i l i0 f).
Proof.
  intros Hf. induction l as [|x l IH]; intros i0; [apply logs_ret|].
  apply logs_bind; [apply Hf | apply IH].
Qed.

Lemma logs_print_issue issue i : logs (print_issue issue i).
Proof. apply logs_log. Qed.

Lemma reports_bind this all (m : M unit) (k : unit → M unit) :
  logs m → reports this all (k ()) → reports this all (bind m k).
Proof.
  intros Hm Hk st Hall. destruct (Hm st) as [o1 E1]. unfold bind. rewrite E1.
  destruct (Hk (mkState (issues st) (stdout st ++ o1) (stderr st)) Hall) as [o2 E2].
  rewrite E2. exists (o1 ++ o2)%list. simpl. by rewrite <-!app_assoc.
Qed.

Lemma reports_summary this all critical medium :
  critical = length (filter (has_severity HIGH) all) →
  medium = length (filter (has_severity MEDIUM) all) →
  reports this all
    (all' <- get_issues ;; forEach (summary this critical medium (length all')) console_log).
Proof.
  intros -> -> st Hall. exists []. unfold bind, get_issues. rewrite Hall.
  change (summary this _ _ (length all)) with (summary_of this all).
  assert (emits (forEach (summary_of this all) console_log) () []
            (summary_of this all ≫= λ line, [line])) as Hloop.
  { rewrite <-(bind_const_nil (summary_of this all)) at 1.
    apply emits_forEach. intros line _. apply emits_log. }
  rewrite Hloop, Hall, app_nil_r, bind_unit_id. by rewrite app_nil_l.
Qed.

(** The run of [generateRecommendations]: the issue list is left as it is,
    and the report ends with the summary block. *)
Lemma generateRecommendations_run this st :
  ∃ body,
    generateRecommendations this st =
      (Ok (), mkState (issues st)
                      (stdout st
                       ++ ("💡 Generating 2025 Mobile-First Recommendations..." ++ nl) :: body
                       ++ summary_of this (issues st))
                      (stderr st)).
Proof.
  assert (reports this (issues st)
            (all <- get_issues ;;
             let critical := filter (has_severity HIGH) all in
             let medium := filter (has_severity MEDIUM) all in
             console_log "🚨 CRITICAL ISSUES (Fix First):" ;;
             forEach_i critical 0 (λ issue i,
               print_issue issue i ;;
               match devices_of issue with
               | Some ds => console_log ("   Missing devices: " ++ join ", " ds)
               | None => ret ()
               end) ;;
             console_log (nl ++ "⚠️  MEDIUM PRIORITY ISSUES:") ;;
             forEach_i medium 0 print_issue ;;
             console_log (nl ++ "📝 RECOMMENDED FIXES FOR 2025 STANDARDS:" ++ nl) ;;
             when (0 <? length critical)%nat (forEach [
               "1. 📱 MOBILE-FIRST RESPONSIVE FIXES:";
               "   - Implement consistent mobile navigation across all device sizes";
               "   - Ensure hamburger menu functionality on Mobile/Mobile-Large";
               "   - Add proper touch targets (44px minimum) for mobile interactions";
               "   - Implement fluid typography with clamp() for consistent scaling"
             ] console_log) ;;
             when (0 <? length medium)%nat (forEach [
               nl ++ "2. 🎨 LAYOUT CONSISTENCY FIXES:";
               "   - Standardize content hierarchy across device breakpoints";
               "   - Implement CSS Grid/Flexbox for consistent layouts";
               "   - Add proper spacing scales using CSS custom properties";
               "   - Ensure consistent component behavior across viewports"
             ] console_log) ;;
             forEach [
               nl ++ "3. 🚀 2025 PERFORMANCE OPTIMIZATIONS:";
               "   - Implement responsive images with next/image";
               "   - Add proper loading states for better perceived performance";
               "   - Use CSS container queries for component-level responsiveness";
               "   - Implement proper focus management for accessibility"
             ] console_log ;;
             all' <- get_issues ;;
             forEach (summary this (length critical) (length medium) (length all'))
               console_log)) as Hrep.
  { intros st' Hall. unfold bind at 1, get_issues at 1. rewrite Hall. cbv zeta.
    revert st' Hall.
    repeat (apply reports_bind;
            [first [ apply logs_log
                   | apply logs_when, logs_forEach; intros; apply logs_log
                   | apply logs_forEach; intros; apply logs_log
                   | apply logs_forEach_i; intros; first
                       [ apply logs_print_issue
                       | apply logs_bind; [apply logs_print_issue|];
                         destruct (devices_of _); [apply logs_log | apply logs_ret] ] ] |]).
    by apply reports_summary. }
  unfold generateRecommendations, bind at 1. rewrite (emits_log _ st). simpl.
  destruct (Hrep (mkState (issues st ++ [])
               (stdout st ++ ["💡 Generating 2025 Mobile-First Recommendations..." ++ nl])
               (stderr st))) as [body Hbody].
  { simpl. by rewrite app_nil_r. }
  exists body. etrans; [exact Hbody|]. simpl. by rewrite <-app_assoc.
Qed.

(** ** The whole run *)

Section run.
Variable this : VisualAnalyzer.
Variable fs : FileSystem.

Lemma banner_emits : emits (forEach banner console_log) () [] banner.
Proof.
  eapply emits_eq.
  - apply (emits_forEach banner console_log (λ _, []) (λ line, [line])).
    intros line _. apply emits_log.
  - apply bind_const_nil.
  - apply bind_unit_id.
Qed.

(** The state in which Phase 3 starts. *)
Lemma analyze_until_patterns st (k : M (list Issue)) :
  (forEach banner console_log ;;
   analyzeSizes this fs ;;
   checkMissingFiles this fs ;;
   k) st
  = k (mkState
         (issues st ++ size_issues this fs ++ missing_issues this fs)
         (stdout st ++ banner ++ [
            "📏 Analyzing screenshot file sizes across devices...";
            "OK--> Size analysis complete. Found "
              ++ pretty (length (issues st ++ size_issues this fs))
              ++ " potential issues." ++ nl;
            "📋 Checking for missing baseline files...";
            "OK--> File check complete. "
              ++ pretty (length (missing_issues this fs))
              ++ " missing files." ++ nl])
         (stderr st)).
Proof.
  unfold bind at 1. rewrite banner_emits.
  unfold bind at 1. rewrite analyzeSizes_run. cbv zeta.
  unfold bind at 1. rewrite checkMissingFiles_run.
  cbn [issues stdout stderr]. fold (size_issues this fs).
  by rewrite !app_nil_r, <-!app_assoc.
Qed.

(** When the baseline directory exists the run succeeds. *)
Lemma analyze_run st entries :
  fs !! baselinesDir this = Some entries →
  let all : list Issue :=
    (issues st ++ size_issues this fs ++ missing_issues this fs
       ++ pattern_issues entries)%list in
  ∃ report,
    analyze this fs st =
      (Ok all, mkState all (stdout st ++ report ++ summary_of this all) (stderr st)).
Proof.
  intros Hdir all. unfold analyze. rewrite analyze_until_patterns.
  unfold bind at 1. rewrite (analyzeLayoutPatterns_run _ _ _ entries Hdir).
  cbn [issues stdout stderr]. unfold bind at 1.
  match goal with
  | |- context [generateRecommendations this ?s] =>
      destruct (generateRecommendations_run this s) as [body Hgen]
  end.
  rewrite Hgen. unfold get_issues. cbn [issues stdout stderr].
  replace ((issues st ++ size_issues this fs ++ missing_issues this fs)
           ++ pattern_issues entries)%list with all
    by (unfold all; by rewrite <-!app_assoc).
  match goal with
  | |- context [(((stdout st ++ ?a ++ ?b) ++ ?c) ++ ?x :: body ++ _)%list] =>
      exists (a ++ b ++ c ++ x :: body)%list
  end.
  by rewrite <-!app_assoc.
Qed.

(** When it does not, Phases 1 and 2 have run and Phase 3 throws. *)
Lemma analyze_throws st :
  fs !! baselinesDir this = None →
  analyze this fs st =
    (Throw (ENOENT "scandir" (baselinesDir this)),
     mkState
       (issues st ++ size_issues this fs ++ missing_issues this fs)
       (stdout st ++ banner ++ [
          "📏 Analyzing screenshot file sizes across devices...";
          "OK--> Size analysis complete. Found "
            ++ pretty (length (issues st ++ size_issues this fs))
            ++ " potential issues." ++ nl;
          "📋 Checking for missing baseline files...";
          "OK--> File check complete. "
            ++ pretty (length (missing_issues this fs))
            ++ " missing files." ++ nl;
          "🎨 Analyzing layout patterns for 2025 best practices..."])
       (stderr st)).
Proof.
  intros Hdir. unfold analyze. rewrite analyze_until_patterns.
  unfold bind at 1. rewrite (analyzeLayoutPatterns_throws _ _ _ Hdir).
  cbn [issues stdout stderr]. by rewrite <-!app_assoc.
Qed.
End run.

(** ** Substrings *)

Lemma prefix_spec sub : ∀ s, String.prefix sub s = true ↔ ∃ post, s = sub ++ post.
Proof.
  induction sub as [|a sub IH]; intros [|b s]; simpl.
  - split; [|done]. intros _. by exists "".
  - split; [|done]. intros _. by exists (String b s).
  - split; [done|]. by intros [post ?].
  - destruct (Ascii.ascii_dec a b) as [->|Hne].
    + rewrite IH. split; intros [post Hpost]; exists post.
      * by rewrite Hpost.
      * by injection Hpost.
    + split; [done|]. intros [post Hpost]. injection Hpost as ? ?. by destruct Hne.
Qed.

Lemma includes_spec sub : ∀ s, includes s sub = true ↔ occurs_in sub s.
Proof.
  induction s as [|c s IH]; cbn [includes]; rewrite orb_true_iff, prefix_spec.
  - split.
    + intros [[post Hpost]|?]; [|done]. by exists "", post.
    + intros (pre & post & Hs). left. destruct pre; [|done]. by exists post.
  - rewrite IH. split.
    + intros [[post Hpost]|(pre & post & Hs)].
      * by exists "", post.
      * exists (String c pre), post. simpl. by rewrite Hs.
    + intros (pre & post & Hs). destruct pre as [|c' pre].
      * left. by exists post.
      * right. injection Hs as _ Hs. by exists pre, post.
Qed.

Lemma is_mobile_nav_spec file :
  is_mobile_nav file = true ↔ occurs_in "nav" file ∧ occurs_in "Mobile" file.
Proof. unfold is_mobile_nav. by rewrite andb_true_iff, !includes_spec. Qed.

Lemma is_homepage_spec file :
  is_homepage file = true ↔ occurs_in "homepage" file ∧ occurs_in "baseline" file.
Proof. unfold is_homepage. by rewrite andb_true_iff, !includes_spec. Qed.

(** ** Directory listings *)

Lemma elem_of_listing (entries : gmap string N) file :
  file ∈ (map_to_list entries).*1 ↔ file ∈ dom entries.
Proof.
  rewrite elem_of_dom, list_elem_of_fmap. split.
  - intros [[f n] [-> Hin]]. exists n. by apply elem_of_map_to_list.
  - intros [n Hn]. exists (file, n). split; [done|]. by apply elem_of_map_to_list.
Qed.

Lemma length_filter_listing (P : string → Prop) `{!∀ x, Decision (P x)}
    (entries : gmap string N) :
  length (filter P (map_to_list entries).*1) = size (filter P (dom entries)).
Proof.
  unfold size, set_size. simpl. apply Permutation_length, NoDup_Permutation.
  - apply NoDup_filter, NoDup_fst_map_to_list.
  - apply NoDup_elements.
  - intros file. by rewrite list_elem_of_filter, elem_of_elements, elem_of_filter, elem_of_listing.
Qed.

Lemma length_filter_0 {A} (P : A → Prop) `{!∀ x, Decision (P x)} (l : list A) :
  length (filter P l) = 0%nat ↔ ∀ x, x ∈ l → ¬ P x.
Proof.
  rewrite length_zero_iff_nil. split.
  - intros Hnil x Hx HP. assert (x ∈ filter P l) as Hin by (by apply list_elem_of_filter).
    rewrite Hnil in Hin. by apply elem_of_nil in Hin.
  - intros Hall. destruct (filter P l) as [|x l'] eqn:E; [done|].
    assert (x ∈ filter P l) as Hin by (rewrite E; left).
    apply list_elem_of_filter in Hin as [HP Hin]. by destruct (Hall x Hin).
Qed.

Lemma lookup_in_baselines entries :
  in_baselines entries !! baselinesDir constructor = Some entries.
Proof. apply lookup_singleton_eq. Qed.

Lemma appended_analyzeLayoutPatterns this fs st entries :
  fs !! baselinesDir this = Some entries →
  appended (analyzeLayoutPatterns this fs) st = pattern_issues entries.
Proof. intros Hdir. eapply emits_appended. by apply analyzeLayoutPatterns_emits. Qed.

Lemma elem_of_pattern_issues entries i :
  i ∈ pattern_issues entries ↔
    (length (filter (λ file, is_mobile_nav file = true) (map_to_list entries).*1) = 0%nat
     ∧ i = mobile_nav_missing) ∨
    ((length (filter (λ file, is_homepage file = true) (map_to_list entries).*1) < 4)%nat
     ∧ i = incomplete_homepage_testing).
Proof.
  unfold pattern_issues. cbv zeta. rewrite elem_of_app.
  destruct (Nat.eqb_spec (length (filter (λ file, is_mobile_nav file = true)
                                    (map_to_list entries).*1)) 0),
    (Nat.ltb_spec (length (filter (λ file, is_homepage file = true)
                             (map_to_list entries).*1)) 4);
    rewrite ?list_elem_of_singleton, ?elem_of_nil; intuition lia.
Qed.

(** ** Claims on Phase 3 *)

(** C6.  On a baseline directory that exists, Phase 3 pushes a
    MOBILE_NAV_MISSING issue, of severity HIGH, if and only if no filename of
    the directory includes both 'nav' and 'Mobile'.  A directory that holds
    only Desktop-home-baseline.png yields the issue; with
    Mobile-navbar-baseline.png next to it the issue is gone. *)
Theorem mobile_nav_missing_iff :
  (∀ this fs st entries,
     fs !! baselinesDir this = Some entries →
     ((∃ i, i ∈ appended (analyzeLayoutPatterns this fs) st ∧ type i = MOBILE_NAV_MISSING)
      ↔ ¬ ∃ file, file ∈ dom entries ∧ occurs_in "nav" file ∧ occurs_in "Mobile" file) ∧
     (∀ i, i ∈ appended (analyzeLayoutPatterns this fs) st →
           type i = MOBILE_NAV_MISSING → severity i = HIGH))
  ∧ (∀ st, filter (λ i, type i = MOBILE_NAV_MISSING)
             (appended (analyzeLayoutPatterns constructor fs_desktop_only) st)
           = [mobile_nav_missing])
  ∧ (∀ st, filter (λ i, type i = MOBILE_NAV_MISSING)
             (appended (analyzeLayoutPatterns constructor fs_with_navbar) st)
           = []).
Proof.
  split; [|split].
  - intros this fs st entries Hdir.
    rewrite (appended_analyzeLayoutPatterns _ _ _ _ Hdir). split.
    + split.
      * intros (i & Hi & Hty) (file & Hin & Hnav & Hmob).
        apply elem_of_pattern_issues in Hi as [[Hlen _]|[_ ->]]; [|done].
        rewrite length_filter_0 in Hlen. apply (Hlen file).
        -- by apply elem_of_listing.
        -- by apply is_mobile_nav_spec.
      * intros Hnone. exists mobile_nav_missing. split; [|done].
        apply elem_of_pattern_issues. left. split; [|done].
        apply length_filter_0. intros file Hin Hnav. apply Hnone. exists file.
        apply elem_of_listing in Hin. by apply is_mobile_nav_spec in Hnav as [? ?].
    + intros i Hi Hty. by apply elem_of_pattern_issues in Hi as [[_ ->]|[_ ->]].
  - intros st.
    rewrite (appended_analyzeLayoutPatterns constructor fs_desktop_only st desktop_only
               (lookup_in_baselines desktop_only)).
    vm_compute. reflexivity.
  - intros st.
    rewrite (appended_analyzeLayoutPatterns constructor fs_with_navbar st with_navbar
               (lookup_in_baselines with_navbar)).
    vm_compute. reflexivity.
Qed.

Lemma mobile_nav_missing_iff_witness :
  (∃ i, i ∈ appended (analyzeLayoutPatterns constructor fs_desktop_only) fresh
        ∧ type i = MOBILE_NAV_MISSING)
  ↔ ¬ ∃ file, file ∈ dom desktop_only ∧ occurs_in "nav" file ∧ occurs_in "Mobile" file.
Proof.
  apply (proj1 mobile_nav_missing_iff constructor fs_desktop_only fresh).
  reflexivity.
Defined.

(** C7.  On a baseline directory that exists, Phase 3 pushes an
    INCOMPLETE_HOMEPAGE_TESTING issue, of severity MEDIUM, if and only if
    strictly fewer than 4 filenames of the directory include both 'homepage'
    and 'baseline'.  Three such files yield the issue, four do not. *)
Theorem incomplete_homepage_testing_iff :
  (∀ file, is_homepage file = true ↔ occurs_in "homepage" file ∧ occurs_in "baseline" file)
  ∧ (∀ this fs st entries,
       fs !! baselinesDir this = Some entries →
       ((∃ i, i ∈ appended (analyzeLayoutPatterns this fs) st
              ∧ type i = INCOMPLETE_HOMEPAGE_TESTING)
        ↔ (size (filter (λ file, is_homepage file = true) (dom entries)) < 4)%nat) ∧
       (∀ i, i ∈ appended (analyzeLayoutPatterns this fs) st →
             type i = INCOMPLETE_HOMEPAGE_TESTING → severity i = MEDIUM))
  ∧ (∀ st, filter (λ i, type i = INCOMPLETE_HOMEPAGE_TESTING)
             (appended (analyzeLayoutPatterns constructor fs_homepage_3) st)
           = [incomplete_homepage_testing])
  ∧ (∀ st, filter (λ i, type i = INCOMPLETE_HOMEPAGE_TESTING)
             (appended (analyzeLayoutPatterns constructor fs_homepage_4) st)
           = []).
Proof.
  split; [exact is_homepage_spec|]. split; [|split].
  - intros this fs st entries Hdir.
    rewrite (appended_analyzeLayoutPatterns _ _ _ _ Hdir).
    rewrite <-length_filter_listing. split.
    + split.
      * intros (i & Hi & Hty).
        by apply elem_of_pattern_issues in Hi as [[_ ->]|[Hlen _]].
      * intros Hlen. exists incomplete_homepage_testing. split; [|done].
        apply elem_of_pattern_issues. by right.
    + intros i Hi Hty. by apply elem_of_pattern_issues in Hi as [[_ ->]|[_ ->]].
  - intros st.
    rewrite (appended_analyzeLayoutPatterns constructor fs_homepage_3 st homepage_3
               (lookup_in_baselines homepage_3)).
    vm_compute. reflexivity.
  - intros st.
    rewrite (appended_analyzeLayoutPatterns constructor fs_homepage_4 st homepage_4
               (lookup_in_baselines homepage_4)).
    vm_compute. reflexivity.
Qed.

Lemma incomplete_homepage_testing_iff_witness :
  (∃ i, i ∈ appended (analyzeLayoutPatterns constructor fs_homepage_3) fresh
        ∧ type i = INCOMPLETE_HOMEPAGE_TESTING)
  ↔ (size (filter (λ file, is_homepage file = true) (dom homepage_3)) < 4)%nat.
Proof.
  apply (proj1 (proj2 incomplete_homepage_testing_iff) constructor fs_homepage_3 fresh).
  reflexivity.
Defined.

(** ** Paths

    [path.join] leaves the path of a baseline as it is spelled when the
    directory is normalised and neither the device nor the page name holds a
    separator. *)

Lemma string_app_cons c (s t : string) : String c s ++ t = String c (s ++ t).
Proof. reflexivity. Qed.

Lemma split_slash_nonempty s : split_slash s ≠ [].
Proof.
  destruct s as [|c s]; cbn [split_slash]; [done|].
  destruct (decide (c = slash)); [done|]. by destruct (split_slash s).
Qed.

Lemma split_slash_app s t :
  split_slash (s ++ String slash t) = (split_slash s ++ split_slash t)%list.
Proof.
  induction s as [|c s IH].
  - change ("" ++ String slash t) with (String slash t). cbn [split_slash].
    by destruct (decide (slash = slash)).
  - rewrite string_app_cons. cbn [split_slash]. rewrite IH.
    destruct (decide (c = slash)); [done|].
    pose proof (split_slash_nonempty s) as Hne. by destruct (split_slash s).
Qed.

Lemma includes_slash_cons c s :
  includes (String c s) "/" = bool_decide (c = slash) || includes s "/".
Proof.
  cbn [includes String.prefix]. f_equal.
  destruct (Ascii.ascii_dec _ c) as [<-|Hne].
  - by destruct s.
  - symmetry. apply bool_decide_eq_false. by intros ->.
Qed.

Lemma includes_slash_app s t :
  includes (s ++ t) "/" = includes s "/" || includes t "/".
Proof.
  induction s as [|c s IH]; [done|].
  by rewrite string_app_cons, !includes_slash_cons, IH, orb_assoc.
Qed.

Lemma split_slash_plain s : plain_name s → split_slash s = [s].
Proof.
  unfold plain_name. induction s as [|c s IH]; [done|].
  rewrite includes_slash_cons. intros [Hc Hs]%orb_false_iff.
  apply bool_decide_eq_false in Hc. cbn [split_slash].
  destruct (decide (c = slash)); [done|]. by rewrite IH.
Qed.

Lemma is_absolute_app s t : s ≠ "" → is_absolute (s ++ t) = is_absolute s.
Proof.
  intros Hs. destruct s as [|c s]; [done|]. rewrite string_app_cons.
  unfold is_absolute. cbn [String.prefix].
  destruct (Ascii.ascii_dec _ c); [|done]. generalize (s ++ t). intros u. by destruct s, u.
Qed.

Lemma segments_app dir name :
  dir ≠ "" → plain_name name → name ≠ "" → name ≠ "." → name ≠ ".." →
  segments (dir ++ "/" ++ name) = (segments dir ++ [name])%list.
Proof.
  intros Hdir Hplain H0 H1 H2. unfold segments.
  rewrite is_absolute_app by done.
  change ("/" ++ name) with (String slash name).
  rewrite split_slash_app, foldl_app, (split_slash_plain name) by done.
  cbn [foldl]. unfold push_segment at 1.
  destruct (decide (name = "" ∨ name = ".")) as [[?|?]|_]; [done..|].
  destruct (decide (name = "..")); [done|]. done.
Qed.

Lemma resolve_plain dir name :
  normalized dir → plain_name name → name ≠ "" → name ≠ "." → name ≠ ".." →
  resolve (dir, name) = (dir, name).
Proof.
  intros [Hdir Hnorm] Hplain H0 H1 H2. unfold resolve, joined. cbn [fst snd].
  destruct (decide (dir = "")); [done|]. destruct (decide (name = "")); [done|].
  cbv zeta. rewrite segments_app, is_absolute_app by done.
  by rewrite removelast_last, last_last, Hnorm.
Qed.

Lemma baseline_name_plain d p :
  plain_name d → plain_name p → plain_name (baseline_name d p).
Proof.
  unfold plain_name, baseline_name. intros Hd Hp.
  by rewrite !includes_slash_app, Hd, Hp.
Qed.

Lemma baseline_name_proper d p :
  baseline_name d p ≠ "" ∧ baseline_name d p ≠ "." ∧ baseline_name d p ≠ "..".
Proof.
  unfold baseline_name. destruct d as [|c [|c' [|c'' d]]]; [done..| |].
  - by destruct p.
  - done.
Qed.

(** Where a baseline is looked for. *)
Lemma lookup_path_plain fs dir d p :
  normalized dir → plain_name d → plain_name p →
  lookup_path fs (path_join dir (baseline_name d p))
  = fs !! dir ≫= λ entries, entries !! baseline_name d p.
Proof.
  intros Hdir Hd Hp. unfold lookup_path, path_join.
  destruct (baseline_name_proper d p) as (H0 & H1 & H2).
  rewrite resolve_plain by auto using baseline_name_plain.
  by destruct (fs !! dir).
Qed.

Lemma bind_ext_in {A B} (f g : A → list B) (l : list A) :
  (∀ x, x ∈ l → f x = g x) → l ≫= f = l ≫= g.
Proof.
  induction l as [|x l IH]; intros Hfg; [done|].
  rewrite !bind_cons, (Hfg x) by left. f_equal. apply IH. intros y Hy. apply Hfg. by right.
Qed.

Lemma constructor_normalized : normalized (baselinesDir constructor).
Proof. split; [done|]. vm_compute. reflexivity. Qed.

Lemma constructor_plain_devices d : d ∈ devices constructor → plain_name d.
Proof.
  intros Hd. repeat (apply elem_of_cons in Hd as [->|Hd]; [vm_compute; reflexivity|]).
  by apply elem_of_nil in Hd.
Qed.

Lemma constructor_plain_pages p : p ∈ pages constructor → plain_name p.
Proof.
  intros Hp. repeat (apply elem_of_cons in Hp as [->|Hp]; [vm_compute; reflexivity|]).
  by apply elem_of_nil in Hp.
Qed.

(** ** Only the baseline directory is read *)

Section directory.
Variable this : VisualAnalyzer.
Variables fs fs' : FileSystem.
Hypothesis dir_normalized : normalized (baselinesDir this).
Hypothesis plain_devices : ∀ d, d ∈ devices this → plain_name d.
Hypothesis plain_pages : ∀ p, p ∈ pages this → plain_name p.
Hypothesis same_dir : fs !! baselinesDir this = fs' !! baselinesDir this.

Lemma lookup_path_ext d p :
  d ∈ devices this → p ∈ pages this →
  lookup_path fs (path_join (baselinesDir this) (baseline_name d p))
  = lookup_path fs' (path_join (baselinesDir this) (baseline_name d p)).
Proof. intros Hd Hp. by rewrite !lookup_path_plain, same_dir by auto. Qed.

Lemma recorded_ext pg : pg ∈ pages this → recorded this fs pg = recorded this fs' pg.
Proof.
  intros Hpg. apply map_eq. intros d. rewrite !lookup_recorded.
  destruct (decide _) as [[Hd _]|_]; [|done]. by rewrite lookup_path_ext.
Qed.

Lemma size_issues_ext : size_issues this fs = size_issues this fs'.
Proof.
  unfold size_issues. apply bind_ext_in. intros pg Hpg. by rewrite recorded_ext.
Qed.

Lemma missing_issues_ext : missing_issues this fs = missing_issues this fs'.
Proof.
  unfold missing_issues. apply bind_ext_in. intros d Hd.
  apply bind_ext_in. intros p Hp.
  unfold absent_issue, existsSync. by rewrite lookup_path_ext.
Qed.
End directory.

Lemma appended_checkMissingFiles this fs st :
  appended (checkMissingFiles this fs) st = missing_issues this fs.
Proof.
  unfold appended. rewrite checkMissingFiles_run. simpl. by rewrite drop_app_length.
Qed.

(** ** Claims on Phases 1 and 2 *)

(** What the device-coverage check does on every page: the issue is pushed
    exactly when fewer than 4 sizes are on record, and it lists the devices
    under whose name the size object holds nothing or a falsy value: those
    without a size on record (unless [Object.prototype] has a member of that
    name) together with those whose size on record is 0. *)
Lemma missing_device_support_general this fs st pg :
  pg ∈ pages this →
  ((∃ i, i ∈ appended (analyzeSizes this fs) st
         ∧ type i = MISSING_DEVICE_SUPPORT ∧ page i = Some pg)
   ↔ (size (recorded this fs pg) < 4)%nat) ∧
  (∀ i, i ∈ appended (analyzeSizes this fs) st →
        type i = MISSING_DEVICE_SUPPORT → page i = Some pg →
        severity i = HIGH ∧
        devices_of i = Some (filter (λ d, falsy_size (recorded this fs pg) d = true)
                                    (devices this))).
Proof.
  intros Hpg. rewrite appended_analyzeSizes.
  assert (∀ i, i ∈ (pages this ≫= λ p, page_issues this (recorded this fs p) p) →
               type i = MISSING_DEVICE_SUPPORT → page i = Some pg →
               (size (recorded this fs pg) < 4)%nat
               ∧ i = missing_device_support this pg (recorded this fs pg)) as Hinv.
  { intros i Hi Hty Hp. apply list_elem_of_bind in Hi as (p & Hi & _).
    pose proof (page_issues_page _ _ _ _ Hi) as Hp'.
    assert (p = pg) as -> by congruence.
    by apply elem_of_page_issues in Hi as [[? ->]|[_ [_ ->]]]. }
  split.
  - split.
    + intros (i & Hi & Hty & Hp). by eapply Hinv.
    + intros Hlt. exists (missing_device_support this pg (recorded this fs pg)).
      split; [|done]. apply list_elem_of_bind. exists pg. split; [|done].
      apply elem_of_page_issues. by left.
  - intros i Hi Hty Hp. by destruct (Hinv i Hi Hty Hp) as [_ ->].
Qed.

(** C2, at a directory whose only entry is an empty (0-byte) baseline for
    Mobile: the size 0 is on record for Mobile, one size is fewer than 4, and
    the issue pushed for each page entry lists all four devices, Mobile among
    them. *)
Theorem missing_device_support_lists_empty_file :
  recorded constructor fs_empty_file "addpagehere" = {[ "Mobile" := 0%N ]}
  ∧ ∀ st, appended (analyzeSizes constructor fs_empty_file) st
          = replicate 5 {|
              type := MISSING_DEVICE_SUPPORT;
              page := Some "addpagehere";
              device := None;
              severity := HIGH;
              description := "addpagehere page missing on some devices";
              devices_of := Some ["Mobile"; "Mobile-Large"; "Tablet"; "Desktop"];
              sizes_of := None;
              filename := None
            |}.
Proof.
  split; [by vm_compute|]. intros st. rewrite appended_analyzeSizes. by vm_compute.
Qed.

(** C3.  Phase 2 never throws; it walks the devices (outer loop) and the
    pages (inner loop) and pushes, for every pair whose file
    {device}-{page}-baseline.png is absent, one MISSING_BASELINE issue of
    severity HIGH with the page, the device, the description
    'Missing baseline for {device} {page}' and the expected filename.  With
    the reference configuration and none of the expected files present, these
    are exactly 20 issues, five per device, in the order of the devices. *)
Theorem missing_baseline_enumeration :
  (∀ this fs st,
     (checkMissingFiles this fs st).1 = Ok () ∧
     appended (checkMissingFiles this fs) st =
       d ← devices this; p ← pages this;
       match lookup_path fs (baselinesDir this, d ++ "-" ++ p ++ "-baseline.png") with
       | Some _ => []
       | None => [ {| type := MISSING_BASELINE;
                      page := Some p;
                      device := Some d;
                      severity := HIGH;
                      description := "Missing baseline for " ++ d ++ " " ++ p;
                      devices_of := None;
                      sizes_of := None;
                      filename := Some (d ++ "-" ++ p ++ "-baseline.png") |} ]
       end)
  ∧ (∀ fs st,
       (∀ d, d ∈ devices constructor →
             lookup_path fs ("visual-tests/baselines", d ++ "-addpagehere-baseline.png")
             = None) →
       let new := appended (checkMissingFiles constructor fs) st in
       length new = 20%nat ∧
       new = d ← ["Mobile"; "Mobile-Large"; "Tablet"; "Desktop"];
             replicate 5 {| type := MISSING_BASELINE;
                            page := Some "addpagehere";
                            device := Some d;
                            severity := HIGH;
                            description := "Missing baseline for " ++ d ++ " addpagehere";
                            devices_of := None;
                            sizes_of := None;
                            filename := Some (d ++ "-addpagehere-baseline.png") |}).
Proof.
  assert (∀ this fs st,
            appended (checkMissingFiles this fs) st =
              d ← devices this; p ← pages this;
              match lookup_path fs (baselinesDir this, d ++ "-" ++ p ++ "-baseline.png") with
              | Some _ => []
              | None => [missing_baseline d p (d ++ "-" ++ p ++ "-baseline.png")]
              end) as Hgen.
  { intros this fs st. rewrite appended_checkMissingFiles. unfold missing_issues.
    apply list_bind_ext; [|done]. intros d. apply list_bind_ext; [|done]. intros p.
    unfold absent_issue, existsSync, path_join, baseline_name.
    by destruct (lookup_path fs _). }
  split.
  - intros this fs st. split; [by rewrite checkMissingFiles_run | apply Hgen].
  - intros fs st Habsent new. subst new. rewrite Hgen.
    assert (∀ d, d ∈ devices constructor →
              (p ← pages constructor;
               match lookup_path fs (baselinesDir constructor,
                                     d ++ "-" ++ p ++ "-baseline.png") with
               | Some _ => []
               | None => [missing_baseline d p (d ++ "-" ++ p ++ "-baseline.png")]
               end)
              = replicate 5 (missing_baseline d "addpagehere"
                               (d ++ "-addpagehere-baseline.png"))) as Hd.
    { intros d Hin. specialize (Habsent d Hin).
      change (d ++ "-addpagehere-baseline.png")
        with (d ++ "-" ++ "addpagehere" ++ "-baseline.png") in Habsent.
      simpl. by rewrite Habsent. }
    change (devices constructor) with ["Mobile"; "Mobile-Large"; "Tablet"; "Desktop"] in *.
    rewrite !bind_cons, !Hd by (repeat constructor). split; reflexivity.
Qed.

Lemma missing_baseline_enumeration_witness :
  length (appended (checkMissingFiles constructor fs_empty) fresh) = 20%nat.
Proof.
  apply (proj2 missing_baseline_enumeration fs_empty fresh).
  intros d Hd. repeat (apply elem_of_cons in Hd as [->|Hd]; [vm_compute; reflexivity|]).
  by apply elem_of_nil in Hd.
Defined.

(** ** Severities and the summary *)

Lemma size_issues_severity this fs : Forall high_or_medium (size_issues this fs).
Proof.
  apply Forall_forall. intros i Hi. apply list_elem_of_bind in Hi as (p & Hi & _).
  apply elem_of_page_issues in Hi as [[_ ->]|[_ [_ ->]]]; [by left | by right].
Qed.

Lemma missing_issues_severity this fs : Forall high_or_medium (missing_issues this fs).
Proof.
  apply Forall_forall. intros i Hi. apply list_elem_of_bind in Hi as (d & Hi & _).
  apply list_elem_of_bind in Hi as (p & Hi & _). unfold absent_issue in Hi.
  destruct (existsSync _ _); [by apply elem_of_nil in Hi|].
  apply list_elem_of_singleton in Hi as ->. by left.
Qed.

Lemma pattern_issues_severity entries : Forall high_or_medium (pattern_issues entries).
Proof.
  apply Forall_forall. intros i Hi.
  apply elem_of_pattern_issues in Hi as [[_ ->]|[_ ->]]; [by left | by right].
Qed.

Lemma length_by_severity (all : list Issue) :
  Forall high_or_medium all →
  length all = (length (filter (has_severity HIGH) all)
                + length (filter (has_severity MEDIUM) all))%nat.
Proof.
  induction 1 as [|i all Hi _ IH]; [done|].
  destruct Hi as [Hi|Hi].
  - rewrite (filter_cons_True (has_severity HIGH)) by done.
    rewrite (filter_cons_False (has_severity MEDIUM)) by (unfold has_severity; congruence).
    simpl. lia.
  - rewrite (filter_cons_False (has_severity HIGH)) by (unfold has_severity; congruence).
    rewrite (filter_cons_True (has_severity MEDIUM)) by done.
    simpl. lia.
Qed.

(** C4.  A run on a baseline directory that exists succeeds; every issue of
    the list it returns has severity HIGH or MEDIUM, and the summary that
    ends the output prints, as Total Issues, the length of the list, which is
    the sum of the Critical Issues (HIGH) and Medium Issues (MEDIUM) counts
    printed above it. *)
Theorem summary_counts this fs entries :
  fs !! baselinesDir this = Some entries →
  ∃ all report critical medium,
    analyze this fs fresh =
      (Ok all,
       mkState all
         (report ++ [
            nl ++ "📊 ANALYSIS SUMMARY:";
            "   Critical Issues: " ++ pretty critical;
            "   Medium Issues: " ++ pretty medium;
            "   Total Issues: " ++ pretty (length all);
            "   Devices Tested: " ++ pretty (length (devices this));
            "   Pages Analyzed: " ++ pretty (length (pages this))])
         [])
    ∧ Forall (λ i, severity i = HIGH ∨ severity i = MEDIUM) all
    ∧ critical = length (filter (λ i, severity i = HIGH) all)
    ∧ medium = length (filter (λ i, severity i = MEDIUM) all)
    ∧ length all = (critical + medium)%nat.
Proof.
  intros Hdir. destruct (analyze_run this fs fresh entries Hdir) as [report Hrun].
  cbv zeta in Hrun. cbn [issues stdout stderr] in Hrun. rewrite !app_nil_l in Hrun.
  set (all := (size_issues this fs ++ missing_issues this fs ++ pattern_issues entries)%list)
    in *.
  assert (Forall high_or_medium all) as Hsev.
  { unfold all. rewrite !Forall_app.
    auto using size_issues_severity, missing_issues_severity, pattern_issues_severity. }
  exists all, report, (length (filter (has_severity HIGH) all)),
    (length (filter (has_severity MEDIUM) all)).
  split; [exact Hrun|]. split; [exact Hsev|]. split; [done|]. split; [done|].
  by apply length_by_severity.
Qed.

Lemma summary_counts_witness :
  ∃ all report critical medium,
    analyze constructor fs_empty fresh =
      (Ok all,
       mkState all
         (report ++ [
            nl ++ "📊 ANALYSIS SUMMARY:";
            "   Critical Issues: " ++ pretty critical;
            "   Medium Issues: " ++ pretty medium;
            "   Total Issues: " ++ pretty (length all);
            "   Devices Tested: " ++ pretty (length (devices constructor));
            "   Pages Analyzed: " ++ pretty (length (pages constructor))])
         [])
    ∧ Forall (λ i, severity i = HIGH ∨ severity i = MEDIUM) all
    ∧ critical = length (filter (λ i, severity i = HIGH) all)
    ∧ medium = length (filter (λ i, severity i = MEDIUM) all)
    ∧ length all = (critical + medium)%nat.
Proof.
  apply (summary_counts constructor fs_empty ∅). reflexivity.
Defined.

(** ** A baseline directory that does not exist *)

Section no_directory.
Variable fs : FileSystem.
Hypothesis no_dir : fs !! "visual-tests/baselines" = None.

Lemma no_dir_empty :
  fs !! baselinesDir constructor = (∅ : FileSystem) !! baselinesDir constructor.
Proof. exact (eq_trans no_dir (eq_sym (lookup_empty _))). Qed.

Lemma size_issues_no_dir :
  size_issues constructor fs
  = replicate 5 (missing_device_support constructor "addpagehere" ∅).
Proof.
  rewrite (size_issues_ext constructor fs ∅ constructor_normalized
             constructor_plain_devices constructor_plain_pages no_dir_empty).
  by vm_compute.
Qed.

Lemma missing_issues_no_dir :
  missing_issues constructor fs
  = d ← devices constructor;
    replicate 5 (missing_baseline d "addpagehere" (baseline_name d "addpagehere")).
Proof.
  rewrite (missing_issues_ext constructor fs ∅ constructor_normalized
             constructor_plain_devices constructor_plain_pages no_dir_empty).
  by vm_compute.
Qed.

Lemma analyze_no_dir :
  analyze constructor fs fresh =
    (Throw (ENOENT "scandir" "visual-tests/baselines"),
     mkState
       (replicate 5 (missing_device_support constructor "addpagehere" ∅)
        ++ (d ← devices constructor;
            replicate 5 (missing_baseline d "addpagehere"
                           (baseline_name d "addpagehere"))))
       [ "Starting Cross-Device Visual Analysis...";
         "2025 Mobile-First Responsive Design Standards Check" ++ nl;
         "📏 Analyzing screenshot file sizes across devices...";
         "OK--> Size analysis complete. Found 5 potential issues." ++ nl;
         "📋 Checking for missing baseline files...";
         "OK--> File check complete. 20 missing files." ++ nl;
         "🎨 Analyzing layout patterns for 2025 best practices..." ]
       []).
Proof.
  rewrite (analyze_throws constructor fs fresh no_dir).
  rewrite size_issues_no_dir, missing_issues_no_dir. reflexivity.
Qed.
End no_directory.

(** C5.  When the baseline directory does not exist, [analyze] fails with the
    ENOENT error of the directory listing ('scandir'); the entry point
    reports that error on standard error, and neither the recommendation
    report nor the completion line is printed: standard output stops at the
    banner of Phase 3. *)
Theorem missing_directory_fails fs :
  fs !! "visual-tests/baselines" = None →
  (analyze constructor fs fresh).1 = Throw (ENOENT "scandir" "visual-tests/baselines")
  ∧ stderr (main fs) = [ENOENT "scandir" "visual-tests/baselines"]
  ∧ stdout (main fs) =
      [ "Starting Cross-Device Visual Analysis...";
        "2025 Mobile-First Responsive Design Standards Check" ++ nl;
        "📏 Analyzing screenshot file sizes across devices...";
        "OK--> Size analysis complete. Found 5 potential issues." ++ nl;
        "📋 Checking for missing baseline files...";
        "OK--> File check complete. 20 missing files." ++ nl;
        "🎨 Analyzing layout patterns for 2025 best practices..." ]
  ∧ (("💡 Generating 2025 Mobile-First Recommendations..." ++ nl) ∉ stdout (main fs))
  ∧ ((nl ++ "📊 ANALYSIS SUMMARY:") ∉ stdout (main fs))
  ∧ ((nl ++ "🎯 Visual analysis complete! Ready for fixes." ++ nl) ∉ stdout (main fs)).
Proof.
  intros Hdir. unfold main. rewrite (analyze_no_dir fs Hdir).
  cbn [fst snd console_error stdout stderr issues].
  split; [done|]. split; [done|]. split; [done|].
  repeat split; intros Hin;
    repeat (apply elem_of_cons in Hin as [Hin|Hin]; [discriminate Hin|]);
    by apply elem_of_nil in Hin.
Qed.

Lemma missing_directory_fails_witness :
  stderr (main ∅) = [ENOENT "scandir" "visual-tests/baselines"].
Proof.
  apply (missing_directory_fails ∅). reflexivity.
Defined.

(** C9.  When the baseline directory does not exist, Phases 1 and 2 do not
    throw (no file is stat'ed unless it exists), and the state in which the
    Phase 3 listing throws holds all their issues: with the reference
    configuration 5 MISSING_DEVICE_SUPPORT issues followed by 20
    MISSING_BASELINE issues.  The failed run has changed the issue list. *)
Theorem issues_survive_failure fs :
  fs !! "visual-tests/baselines" = None →
  (∀ st, (analyzeSizes constructor fs st).1 = Ok ())
  ∧ (∀ st, (checkMissingFiles constructor fs st).1 = Ok ())
  ∧ ∃ st',
      analyze constructor fs fresh = (Throw (ENOENT "scandir" "visual-tests/baselines"), st')
      ∧ issues st' =
          app
          (replicate 5 {| type := MISSING_DEVICE_SUPPORT;
                         page := Some "addpagehere";
                         device := None;
                         severity := HIGH;
                         description := "addpagehere page missing on some devices";
                         devices_of := Some ["Mobile"; "Mobile-Large"; "Tablet"; "Desktop"];
                         sizes_of := None;
                         filename := None |})
          (d ← ["Mobile"; "Mobile-Large"; "Tablet"; "Desktop"];
              replicate 5 {| type := MISSING_BASELINE;
                             page := Some "addpagehere";
                             device := Some d;
                             severity := HIGH;
                             description := "Missing baseline for " ++ d ++ " addpagehere";
                             devices_of := None;
                             sizes_of := None;
                             filename := Some (d ++ "-addpagehere-baseline.png") |})
      ∧ length (filter (λ i, type i = MISSING_DEVICE_SUPPORT) (issues st')) = 5%nat
      ∧ length (filter (λ i, type i = MISSING_BASELINE) (issues st')) = 20%nat
      ∧ length (issues st') = 25%nat
      ∧ issues st' ≠ issues fresh.
Proof.
  intros Hdir.
  split; [intros st; by rewrite analyzeSizes_run|].
  split; [intros st; by rewrite checkMissingFiles_run|].
  eexists. split; [apply (analyze_no_dir fs Hdir)|].
  cbn [issues]. split; [reflexivity|]. split; [by vm_compute|].
  split; [by vm_compute|]. split; [reflexivity|]. discriminate.
Qed.

Lemma issues_survive_failure_witness :
  ∃ st',
    analyze constructor ∅ fresh = (Throw (ENOENT "scandir" "visual-tests/baselines"), st')
    ∧ length (issues st') = 25%nat.
Proof.
  destruct (issues_survive_failure ∅) as (_ & _ & st' & Hrun & _ & _ & _ & Hlen & _).
  - reflexivity.
  - exists st'. split; [exact Hrun | exact Hlen].
Defined.

(** ** The issue list only grows *)

Lemma analyzeSizes_grows this fs st :
  issues st `prefix_of` issues (analyzeSizes this fs st).2.
Proof. rewrite analyzeSizes_run. by eexists. Qed.

Lemma checkMissingFiles_grows this fs st :
  issues st `prefix_of` issues (checkMissingFiles this fs st).2.
Proof. rewrite checkMissingFiles_run. by eexists. Qed.

Lemma analyzeLayoutPatterns_grows this fs st :
  issues st `prefix_of` issues (analyzeLayoutPatterns this fs st).2.
Proof.
  destruct (fs !! baselinesDir this) as [entries|] eqn:Hdir.
  - rewrite (analyzeLayoutPatterns_run _ _ _ _ Hdir). by eexists.
  - by rewrite (analyzeLayoutPatterns_throws _ _ _ Hdir).
Qed.

Lemma generateRecommendations_keeps this st :
  issues (generateRecommendations this st).2 = issues st.
Proof. destruct (generateRecommendations_run this st) as [body ->]. done. Qed.

(** C8.  The issue list of a new analyzer is empty.  Each of the first three
    phases leaves the list it finds as a prefix of the list it leaves, whether
    it returns or throws, and Phase 4 leaves the list as it is.  On a
    directory that exists, [analyze] is the run of the four phases in the
    order size analysis, missing-file check, layout-pattern analysis,
    recommendation generation, each started in the state the one before it
    left, and it returns the list accumulated in the last state. *)
Theorem issues_grow_monotonically :
  issues fresh = []
  ∧ (∀ this fs st,
       issues st `prefix_of` issues (analyzeSizes this fs st).2
       ∧ issues st `prefix_of` issues (checkMissingFiles this fs st).2
       ∧ issues st `prefix_of` issues (analyzeLayoutPatterns this fs st).2
       ∧ issues (generateRecommendations this st).2 = issues st)
  ∧ (∀ this fs entries,
       fs !! baselinesDir this = Some entries →
       ∃ s0 s1 s2 s3 s4 new1 new2 new3,
         forEach banner console_log fresh = (Ok (), s0)
         ∧ analyzeSizes this fs s0 = (Ok (), s1)
         ∧ checkMissingFiles this fs s1 = (Ok (), s2)
         ∧ analyzeLayoutPatterns this fs s2 = (Ok (), s3)
         ∧ generateRecommendations this s3 = (Ok (), s4)
         ∧ analyze this fs fresh = (Ok (issues s4), s4)
         ∧ issues s0 = []
         ∧ issues s1 = new1
         ∧ issues s2 = (new1 ++ new2)%list
         ∧ issues s3 = (new1 ++ new2 ++ new3)%list
         ∧ issues s4 = (new1 ++ new2 ++ new3)%list).
Proof.
  split; [done|]. split.
  - intros this fs st.
    auto using analyzeSizes_grows, checkMissingFiles_grows, analyzeLayoutPatterns_grows,
      generateRecommendations_keeps.
  - intros this fs entries Hdir.
    pose proof (banner_emits fresh) as H0. cbn [issues stdout stderr fresh] in H0.
    rewrite !app_nil_l in H0.
    set (s0 := mkState [] banner []) in *.
    pose proof (analyzeSizes_run this fs s0) as H1. cbv zeta in H1.
    fold (size_issues this fs) in H1. cbn [issues stdout stderr s0] in H1.
    rewrite !app_nil_l in H1.
    match type of H1 with _ = (_, ?s) => set (s1 := s) in * end.
    pose proof (checkMissingFiles_run this fs s1) as H2. cbn [issues stdout stderr s1] in H2.
    match type of H2 with _ = (_, ?s) => set (s2 := s) in * end.
    pose proof (analyzeLayoutPatterns_run this fs s2 entries Hdir) as H3.
    cbn [issues stdout stderr s2] in H3.
    match type of H3 with _ = (_, ?s) => set (s3 := s) in * end.
    destruct (generateRecommendations_run this s3) as [body H4].
    cbn [issues stdout stderr s3] in H4.
    match type of H4 with _ = (_, ?s) => set (s4 := s) in * end.
    exists s0, s1, s2, s3, s4,
      (size_issues this fs), (missing_issues this fs), (pattern_issues entries).
    split; [exact H0|]. split; [exact H1|]. split; [exact H2|].
    split; [exact H3|]. split; [exact H4|].
    split.
    + unfold analyze. unfold bind at 1. rewrite H0.
      unfold bind at 1. rewrite H1. unfold bind at 1. rewrite H2.
      unfold bind at 1. rewrite H3. unfold bind at 1. rewrite H4. done.
    + cbn [issues s0 s1 s2 s3 s4]. by rewrite <-!app_assoc.
Qed.

Lemma issues_grow_monotonically_witness :
  ∃ s0 s1 s2 s3 s4 new1 new2 new3,
    forEach banner console_log fresh = (Ok (), s0)
    ∧ analyzeSizes constructor fs_empty s0 = (Ok (), s1)
    ∧ checkMissingFiles constructor fs_empty s1 = (Ok (), s2)
    ∧ analyzeLayoutPatterns constructor fs_empty s2 = (Ok (), s3)
    ∧ generateRecommendations constructor s3 = (Ok (), s4)
    ∧ analyze constructor fs_empty fresh = (Ok (issues s4), s4)
    ∧ issues s0 = []
    ∧ issues s1 = new1
    ∧ issues s2 = (new1 ++ new2)%list
    ∧ issues s3 = (new1 ++ new2 ++ new3)%list
    ∧ issues s4 = (new1 ++ new2 ++ new3)%list.
Proof.
  apply (proj2 (proj2 issues_grow_monotonically) constructor fs_empty ∅). reflexivity.
Defined.

(** ** Repeated page names *)

Lemma length_filter_all {A} (P : A → Prop) `{!∀ x, Decision (P x)} (l : list A) :
  (∀ x, x ∈ l → P x) → length (filter P l) = length l.
Proof.
  induction l as [|x l IH]; intros Hall; [done|].
  rewrite filter_cons_True by (apply Hall; left). simpl. f_equal.
  apply IH. intros y Hy. apply Hall. by right.
Qed.

Lemma length_filter_page this fs pg (l : list string) :
  length (filter (λ i, page i = Some pg)
            (l ≫= λ p, page_issues this (recorded this fs p) p))
  = (length (filter (λ p, p = pg) l)
     * length (page_issues this (recorded this fs pg) pg))%nat.
Proof.
  induction l as [|p l IH]; [done|].
  rewrite bind_cons, filter_app, length_app, IH.
  destruct (decide (p = pg)) as [->|Hne].
  - rewrite filter_cons_True by done. rewrite length_filter_all; [simpl; lia|].
    intros i Hi. by apply page_issues_page in Hi.
  - rewrite filter_cons_False by done.
    assert (length (filter (λ i, page i = Some pg)
                      (page_issues this (recorded this fs p) p)) = 0%nat) as ->; [|done].
    apply length_filter_0. intros i Hi Hpg. apply page_issues_page in Hi. congruence.
Qed.

Lemma recorded_absent this fs pg :
  (∀ d, d ∈ devices this →
        lookup_path fs (path_join (baselinesDir this) (baseline_name d pg)) = None) →
  recorded this fs pg = ∅.
Proof.
  intros Habsent. apply map_eq. intros d. rewrite lookup_recorded, lookup_empty.
  destruct (decide _) as [[Hd _]|_]; [|done]. by rewrite Habsent.
Qed.

(** C10.  Phase 1 runs the per-page checks once per entry of the page list:
    what it pushes is the concatenation, over the list, of the issues of each
    entry, so a page named [k] times gets [k] times the issues of one check,
    although the local object [sizes] has a single key per name.  With the
    reference configuration (five entries 'addpagehere') and none of the four
    expected files present, exactly five identical MISSING_DEVICE_SUPPORT
    issues are pushed. *)
Theorem checks_run_per_list_entry :
  (∀ this fs st,
     appended (analyzeSizes this fs) st
     = (p ← pages this; page_issues this (recorded this fs p) p)
     ∧ ∀ pg,
         length (filter (λ i, page i = Some pg) (appended (analyzeSizes this fs) st))
         = (length (filter (λ p, p = pg) (pages this))
            * length (page_issues this (recorded this fs pg) pg))%nat)
  ∧ (∀ this fs,
       emits (collect_sizes this fs) (sizes_object this fs) [] []
       ∧ dom (sizes_object this fs) = list_to_set (pages this))
  ∧ (∀ fs, dom (sizes_object constructor fs) = {[ "addpagehere" ]})
  ∧ (∀ fs st,
       (∀ d, d ∈ devices constructor →
             lookup_path fs ("visual-tests/baselines", d ++ "-addpagehere-baseline.png")
             = None) →
       appended (analyzeSizes constructor fs) st
       = replicate 5 {| type := MISSING_DEVICE_SUPPORT;
                        page := Some "addpagehere";
                        device := None;
                        severity := HIGH;
                        description := "addpagehere page missing on some devices";
                        devices_of := Some ["Mobile"; "Mobile-Large"; "Tablet"; "Desktop"];
                        sizes_of := None;
                        filename := None |}).
Proof.
  split; [|split; [|split]].
  - intros this fs st. rewrite appended_analyzeSizes. split; [done|].
    intros pg. apply length_filter_page.
  - intros this fs. split; [apply collect_sizes_emits | apply dom_sizes_object].
  - intros fs. rewrite dom_sizes_object. apply set_eq. intros p.
    rewrite elem_of_list_to_set, elem_of_singleton. simpl. split.
    + intros Hin. repeat (apply elem_of_cons in Hin as [?|Hin]; [done|]).
      by apply elem_of_nil in Hin.
    + intros ->. left.
  - intros fs st Habsent. rewrite appended_analyzeSizes.
    assert (recorded constructor fs "addpagehere" = ∅) as Hrec.
    { apply recorded_absent. intros d Hd. exact (Habsent d Hd). }
    change (pages constructor) with (replicate 5 "addpagehere").
    simpl. rewrite Hrec. by vm_compute.
Qed.

Lemma checks_run_per_list_entry_witness :
  length (appended (analyzeSizes constructor fs_empty) fresh) = 5%nat.
Proof.
  rewrite (proj2 (proj2 (proj2 checks_run_per_list_entry)) fs_empty fresh).
  - reflexivity.
  - intros d Hd. repeat (apply elem_of_cons in Hd as [->|Hd]; [vm_compute; reflexivity|]).
    by apply elem_of_nil in Hd.
Defined.


(** * Further properties of the code *)

(** ** Running [analyze] again on the same instance *)

(** X1.  No method resets [this.issues]: on a baseline directory that exists,
    a second [analyze] on the same instance returns the issues of the first
    run followed by the same issues once more. *)
Theorem analyze_twice_duplicates this fs entries :
  fs !! baselinesDir this = Some entries →
  ∃ all st1 st2,
    analyze this fs fresh = (Ok all, st1)
    ∧ issues st1 = all
    ∧ analyze this fs st1 = (Ok (all ++ all)%list, st2)
    ∧ issues st2 = (all ++ all)%list.
Proof.
  intros Hdir.
  destruct (analyze_run this fs fresh entries Hdir) as [r1 H1]. cbv zeta in H1.
  cbn [issues fresh] in H1. rewrite app_nil_l in H1.
  set (all := (size_issues this fs ++ missing_issues this fs
               ++ pattern_issues entries)%list) in *.
  match type of H1 with _ = (_, ?s) => set (st1 := s) in * end.
  destruct (analyze_run this fs st1 entries Hdir) as [r2 H2]. cbv zeta in H2.
  cbn [issues st1] in H2. fold all in H2.
  match type of H2 with _ = (_, ?s) => set (st2 := s) in * end.
  by exists all, st1, st2.
Qed.

Lemma analyze_twice_duplicates_witness :
  ∃ all st1 st2,
    analyze constructor fs_empty fresh = (Ok all, st1)
    ∧ issues st1 = all
    ∧ analyze constructor fs_empty st1 = (Ok (all ++ all)%list, st2)
    ∧ issues st2 = (all ++ all)%list.
Proof.
  apply (analyze_twice_duplicates constructor fs_empty ∅). reflexivity.
Defined.

(** X2.  The count in the progress line of Phase 1 is the length of the whole
    issue list at that moment: the issues the instance already held plus the
    ones Phase 1 has just pushed. *)
Theorem size_progress_counts_whole_list this fs st :
  last (stdout (analyzeSizes this fs st).2)
  = Some ("OK--> Size analysis complete. Found "
          ++ pretty (length (issues st)
                     + length (appended (analyzeSizes this fs) st))%nat
          ++ " potential issues." ++ nl).
Proof.
  rewrite appended_analyzeSizes, analyzeSizes_run. cbv zeta. cbn [snd stdout].
  rewrite length_app.
  match goal with
  | |- last (?l ++ [?a; ?b])%list = _ =>
      change (l ++ [a; b])%list with (l ++ [a] ++ [b])%list
  end.
  by rewrite app_assoc, last_snoc.
Qed.

(** ** How many sizes are on record *)

Lemma dom_recorded this fs pg :
  "__proto__" ∉ devices this →
  dom (recorded this fs pg)
  = list_to_set (filter (has_baseline this fs pg) (devices this)).
Proof.
  intros Hproto. apply set_eq. intros d.
  rewrite elem_of_dom, lookup_recorded, elem_of_list_to_set, list_elem_of_filter.
  unfold has_baseline.
  destruct (decide _) as [[Hd _]|Hd]; [rewrite fmap_is_Some; tauto|].
  split; [by intros [? ?]|]. intros [_ Hin]. destruct Hd. split; [done|]. by intros ->.
Qed.

Lemma size_recorded this fs pg :
  NoDup (devices this) →
  "__proto__" ∉ devices this →
  size (recorded this fs pg) = length (filter (has_baseline this fs pg) (devices this)).
Proof.
  intros Hnd Hproto. rewrite <-size_dom, dom_recorded by done.
  by apply size_list_to_set, NoDup_filter.
Qed.

Lemma size_foldl_record this fs pg (l : list string) : ∀ acc : gmap string N,
  (size (foldl (record_step this fs pg) acc l) ≤ size acc + length l)%nat.
Proof.
  induction l as [|d l IH]; intros acc; cbn [foldl length]; [lia|].
  etrans; [apply IH|]. unfold record_step.
  destruct (lookup_path fs _); [|lia]. unfold set_property.
  destruct (decide _); [lia|].
  rewrite map_size_insert. destruct (acc !! d); simpl; lia.
Qed.

Lemma size_recorded_le this fs pg :
  (size (recorded this fs pg) ≤ length (devices this))%nat.
Proof.
  unfold recorded. etrans; [apply size_foldl_record|]. by rewrite map_size_empty.
Qed.

Lemma length_filter_lt_iff {A} (P : A → Prop) `{!∀ x, Decision (P x)} (l : list A) :
  (length (filter P l) < length l)%nat ↔ ∃ x, x ∈ l ∧ ¬ P x.
Proof.
  split.
  - intros Hlt. destruct (decide (Forall P l)) as [Hall|Hex].
    + rewrite length_filter_all in Hlt; [lia|]. by apply Forall_forall.
    + apply not_Forall_Exists in Hex; [|apply _].
      apply Exists_exists in Hex as (x & Hx & HP). eauto.
  - intros (x & Hx & HP). by eapply length_filter_lt.
Qed.

Lemma elem_of_missing_issues this fs i :
  i ∈ missing_issues this fs ↔
    ∃ d p, d ∈ devices this ∧ p ∈ pages this ∧ ¬ has_baseline this fs p d
           ∧ i = missing_baseline d p (baseline_name d p).
Proof.
  unfold missing_issues. rewrite list_elem_of_bind. split.
  - intros (d & Hi & Hd). apply list_elem_of_bind in Hi as (p & Hi & Hp).
    exists d, p. unfold absent_issue, existsSync in Hi. unfold has_baseline.
    destruct (lookup_path fs _); [by apply elem_of_nil in Hi|].
    apply list_elem_of_singleton in Hi. repeat split; try done.
  - intros (d & p & Hd & Hp & Habs & ->). exists d. split; [|done].
    apply list_elem_of_bind. exists p. split; [|done].
    unfold absent_issue, existsSync. unfold has_baseline in Habs.
    destruct (lookup_path fs _); [by destruct Habs | left].
Qed.

(** X3.  With four distinct configured devices, none of them named
    [__proto__] (a key under which an object records no size), the two phases
    agree on every configured page: Phase 1 pushes a MISSING_DEVICE_SUPPORT
    issue for the page exactly when Phase 2 pushes at least one
    MISSING_BASELINE issue for it. *)
Theorem device_support_agrees_with_baselines this fs st st' pg :
  NoDup (devices this) →
  "__proto__" ∉ devices this →
  length (devices this) = 4%nat →
  pg ∈ pages this →
  (∃ i, i ∈ appended (analyzeSizes this fs) st
        ∧ type i = MISSING_DEVICE_SUPPORT ∧ page i = Some pg)
  ↔ (∃ i, i ∈ appended (checkMissingFiles this fs) st'
          ∧ type i = MISSING_BASELINE ∧ page i = Some pg).
Proof.
  intros Hnd Hproto Hlen Hpg.
  rewrite (proj1 (missing_device_support_general this fs st pg Hpg)).
  rewrite size_recorded by done. rewrite <-Hlen, length_filter_lt_iff.
  rewrite appended_checkMissingFiles. split.
  - intros (d & Hd & Habs). exists (missing_baseline d pg (baseline_name d pg)).
    split; [|done]. apply elem_of_missing_issues. by exists d, pg.
  - intros (i & Hi & _ & Hp).
    apply elem_of_missing_issues in Hi as (d & p & Hd & _ & Habs & ->).
    simpl in Hp. injection Hp as ->. eauto.
Qed.

Lemma device_support_agrees_with_baselines_witness :
  (∃ i, i ∈ appended (analyzeSizes constructor fs_100_301) fresh
        ∧ type i = MISSING_DEVICE_SUPPORT ∧ page i = Some "addpagehere")
  ↔ (∃ i, i ∈ appended (checkMissingFiles constructor fs_100_301) fresh
          ∧ type i = MISSING_BASELINE ∧ page i = Some "addpagehere").
Proof.
  apply (device_support_agrees_with_baselines constructor fs_100_301 fresh fresh).
  - apply (bool_decide_unpack _). vm_compute. exact I.
  - apply (bool_decide_unpack _). vm_compute. exact I.
  - reflexivity.
  - left.
Defined.

(** X4.  The coverage threshold is the literal 4, not the number of
    configured devices: with fewer than four devices configured, Phase 1
    pushes a MISSING_DEVICE_SUPPORT issue for every configured page, whatever
    files exist. *)
Theorem few_devices_always_reported this fs st pg :
  (length (devices this) < 4)%nat →
  pg ∈ pages this →
  ∃ i, i ∈ appended (analyzeSizes this fs) st
       ∧ type i = MISSING_DEVICE_SUPPORT ∧ page i = Some pg.
Proof.
  intros Hlen Hpg. apply (missing_device_support_general this fs st pg Hpg).
  pose proof (size_recorded_le this fs pg). lia.
Qed.

Lemma few_devices_always_reported_witness :
  ∃ i, i ∈ appended (analyzeSizes three_devices fs_home_3) fresh
       ∧ type i = MISSING_DEVICE_SUPPORT ∧ page i = Some "home".
Proof.
  apply (few_devices_always_reported three_devices fs_home_3 fresh "home").
  - vm_compute. lia.
  - left.
Defined.

(** X5.  Conversely, with more than four distinct devices configured, none
    of them named [__proto__], a page that has baselines for at least four of
    them gets no MISSING_DEVICE_SUPPORT issue, also when the baseline of
    another device is missing. *)
Theorem many_devices_unreported this fs st pg :
  NoDup (devices this) →
  "__proto__" ∉ devices this →
  pg ∈ pages this →
  (4 ≤ length (filter (has_baseline this fs pg) (devices this)))%nat →
  ¬ ∃ i, i ∈ appended (analyzeSizes this fs) st
         ∧ type i = MISSING_DEVICE_SUPPORT ∧ page i = Some pg.
Proof.
  intros Hnd Hproto Hpg Hfour Hex.
  apply (missing_device_support_general this fs st pg Hpg) in Hex.
  rewrite size_recorded in Hex by done. lia.
Qed.

Lemma many_devices_unreported_witness :
  ¬ has_baseline five_devices fs_home_4 "home" "Desktop-Wide"
  ∧ ¬ ∃ i, i ∈ appended (analyzeSizes five_devices fs_home_4) fresh
           ∧ type i = MISSING_DEVICE_SUPPORT ∧ page i = Some "home".
Proof.
  split; [apply (bool_decide_unpack _); vm_compute; exact I|].
  apply (many_devices_unreported five_devices fs_home_4 fresh "home").
  - apply (bool_decide_unpack _). vm_compute. exact I.
  - apply (bool_decide_unpack _). vm_compute. exact I.
  - left.
  - vm_compute. lia.
Defined.

(** ** Which devices the coverage issue lists *)



(** ** Edge cases of the ratio check *)

(** X7.  A page with fewer than two sizes on record never gets a
    LAYOUT_INCONSISTENCY issue. *)
Theorem single_size_no_layout_issue this fs st pg :
  (size (recorded this fs pg) < 2)%nat →
  ¬ ∃ i, i ∈ appended (analyzeSizes this fs) st
         ∧ type i = LAYOUT_INCONSISTENCY ∧ page i = Some pg.
Proof.
  intros Hsize (i & Hi & Hty & Hp). rewrite appended_analyzeSizes in Hi.
  apply list_elem_of_bind in Hi as (p & Hi & _).
  pose proof (page_issues_page _ _ _ _ Hi) as Hp'.
  assert (p = pg) as -> by congruence.
  apply elem_of_page_issues in Hi as [[_ ->]|[Hlt _]]; [done|lia].
Qed.

Lemma single_size_no_layout_issue_witness :
  ¬ ∃ i, i ∈ appended (analyzeSizes constructor fs_empty_file) fresh
         ∧ type i = LAYOUT_INCONSISTENCY ∧ page i = Some "addpagehere".
Proof.
  apply (single_size_no_layout_issue constructor fs_empty_file fresh "addpagehere").
  vm_compute. lia.
Defined.

(** X8.  An empty (0-byte) baseline next to a non-empty one divides by zero:
    with least size 0 on record, the LAYOUT_INCONSISTENCY issue is pushed
    exactly when the greatest size is not 0 (ratio Infinity; 0 / 0 is NaN and
    passes no test), and its description then reads 'Infinityx variation'. *)
Theorem zero_byte_baseline_ratio this fs st pg mx :
  pg ∈ pages this →
  (2 ≤ size (recorded this fs pg))%nat →
  is_min 0%N (recorded this fs pg) →
  is_max mx (recorded this fs pg) →
  ((∃ i, i ∈ appended (analyzeSizes this fs) st
         ∧ type i = LAYOUT_INCONSISTENCY ∧ page i = Some pg)
   ↔ (0 < mx)%N) ∧
  (∀ i, i ∈ appended (analyzeSizes this fs) st →
        type i = LAYOUT_INCONSISTENCY → page i = Some pg →
        description i
        = "Extreme content differences across devices (Infinityx variation)").
Proof.
  intros Hpg Hsize Hmin Hmax. rewrite appended_analyzeSizes.
  set (ps := recorded this fs pg) in *.
  assert (Math_max (map_to_list ps).*2 = mx) as Emax.
  { eapply is_max_unique; [|done]. apply Math_max_is_max. lia. }
  assert (Math_min (map_to_list ps).*2 = 0%N) as Emin.
  { eapply is_min_unique; [|done]. apply Math_min_is_min. lia. }
  assert (∀ i, i ∈ (pages this ≫= λ p, page_issues this (recorded this fs p) p) →
               type i = LAYOUT_INCONSISTENCY → page i = Some pg →
               gt (div mx 0) 3 = true ∧ i = layout_inconsistency pg (div mx 0) ps) as Hinv.
  { intros i Hi Hty Hp. apply list_elem_of_bind in Hi as (p & Hi & _).
    pose proof (page_issues_page _ _ _ _ Hi) as Hp'.
    assert (p = pg) as -> by congruence. fold ps in Hi.
    apply elem_of_page_issues in Hi as [[_ ->]|[_ Hi]]; [done|].
    cbv zeta in Hi. by rewrite Emax, Emin in Hi. }
  split.
  - split.
    + intros (i & Hi & Hty & Hp). destruct (Hinv i Hi Hty Hp) as [Hgt _].
      unfold div in Hgt. simpl in Hgt. destruct (N.eqb_spec mx 0); [done|lia].
    + intros Hpos. exists (layout_inconsistency pg (div mx 0) ps). split; [|done].
      apply list_elem_of_bind. exists pg. split; [|done]. fold ps.
      apply elem_of_page_issues. right. split; [lia|]. cbv zeta.
      rewrite Emax, Emin. split; [|done]. unfold div. simpl.
      destruct (N.eqb_spec mx 0); [lia|done].
  - intros i Hi Hty Hp. destruct (Hinv i Hi Hty Hp) as [Hgt ->].
    unfold div in *. simpl in *. by destruct (N.eqb_spec mx 0).
Qed.

Lemma zero_byte_baseline_ratio_witness :
  (∃ i, i ∈ appended (analyzeSizes constructor fs_0_500) fresh
        ∧ type i = LAYOUT_INCONSISTENCY ∧ page i = Some "addpagehere")
  ↔ (0 < 500)%N.
Proof.
  assert (Math_min (map_to_list (recorded constructor fs_0_500 "addpagehere")).*2 = 0%N)
    as Emin by (vm_compute; reflexivity).
  assert (Math_max (map_to_list (recorded constructor fs_0_500 "addpagehere")).*2 = 500%N)
    as Emax by (vm_compute; reflexivity).
  apply (zero_byte_baseline_ratio constructor fs_0_500 fresh "addpagehere" 500%N).
  - left.
  - vm_compute. lia.
  - rewrite <-Emin. apply Math_min_is_min. vm_compute. lia.
  - rewrite <-Emax. apply Math_max_is_max. vm_compute. lia.
Defined.

(** ** The quotient is correctly rounded *)

Section rounding.
Local Open Scope Z_scope.

(** X9.  [max / min] is the correctly rounded quotient: for two positive byte
    sizes below 2^53 the model's number is m * 2^e with a significand of 53
    bits, and it lies within half a unit in the last place of the exact
    quotient. *)
Theorem ratio_correctly_rounded (a b : N) m e :
  (0 < a < 2 ^ 53)%N → (0 < b < 2 ^ 53)%N → div a b = Finite m e →
  e ≤ 0 ∧ 2 ^ 52 ≤ m ≤ 2 ^ 53
  ∧ Z.abs (2 * (Z.of_N a * 2 ^ (- e) - m * Z.of_N b)) ≤ Z.of_N b.
Proof.
  intros Ha Hb Heq.
  destruct (div_safe a b Ha Hb) as (m' & e' & Hd & Hr).
  rewrite Hd in Heq. injection Heq as -> ->.
  assert (0 < Z.of_N a < 2 ^ 53) as Ha' by (change (2 ^ 53) with (Z.of_N (2 ^ 53)); lia).
  assert (0 < Z.of_N b < 2 ^ 53) as Hb' by (change (2 ^ 53) with (Z.of_N (2 ^ 53)); lia).
  by apply round_div_nearest.
Qed.

End rounding.

Lemma ratio_correctly_rounded_witness :
  (-51 ≤ 0 ∧ 2 ^ 52 ≤ 6777917439192596 ≤ 2 ^ 53
   ∧ Z.abs (2 * (Z.of_N 301 * 2 ^ (- -51) - 6777917439192596 * Z.of_N 100))
     ≤ Z.of_N 100)%Z.
Proof.
  apply (ratio_correctly_rounded 301 100).
  - split; reflexivity.
  - split; reflexivity.
  - vm_compute. reflexivity.
Defined.

Lemma string_app_assoc (s1 s2 s3 : string) : s1 ++ s2 ++ s3 = (s1 ++ s2) ++ s3.
Proof. induction s1 as [|c s1 IH]; [done|]. exact (f_equal (String c) IH). Qed.

Section exact_quotients.
Local Open Scope Z_scope.

Lemma round_div_exact k b m e :
  0 < k → 0 < b < 2 ^ 53 → k * b < 2 ^ 53 → round_div (k * b) b = (m, e) →
  ∃ j, 0 ≤ j ∧ e = - j ∧ m = k * 2 ^ j.
Proof.
  intros Hk Hb Hkb Hr.
  apply round_div_normal in Hr as (j & Hj & -> & _ & ->); [|nia|done].
  exists j. split; [done|]. split; [done|].
  replace (k * b * 2 ^ j) with (k * 2 ^ j * b) by lia.
  rewrite Z.mod_mul, Z.div_mul by lia.
  replace (b <? 2 * 0) with false by (symmetry; apply Z.ltb_ge; lia).
  replace (2 * 0 =? b) with false by (symmetry; apply Z.eqb_neq; lia).
  done.
Qed.

Lemma toFixed1_exact k j :
  0 ≤ k → 0 ≤ j → toFixed1 (Finite (k * 2 ^ j) (- j)) = (pretty k ++ ".0")%string.
Proof.
  intros Hk Hj. unfold toFixed1. cbv zeta.
  rewrite Z.opp_involutive, (Z.max_r 0 j), (Z.max_l 0 (- j)) by lia.
  rewrite Z.pow_0_r, Z.mul_1_r.
  assert (0 < 2 ^ j) as Hp by (apply Z.pow_pos_nonneg; lia).
  replace (2 * 10 * (k * 2 ^ j) + 2 ^ j) with (10 * k * (2 * 2 ^ j) + 2 ^ j) by lia.
  rewrite Z.div_add_l, (Z.div_small (2 ^ j)), Z.add_0_r by lia.
  replace (10 * k) with (k * 10) by lia.
  by rewrite Z.div_mul, Z.mod_mul by lia.
Qed.
End exact_quotients.

(** X10.  When the greatest size is an exact multiple k of the least one (both
    below 2^53), the quotient is exact and the description of the
    LAYOUT_INCONSISTENCY issue quotes it as 'k.0x variation'. *)
Theorem exact_multiple_description this fs st pg (mn k : N) i :
  pg ∈ pages this →
  (2 ≤ size (recorded this fs pg))%nat →
  safe_sizes (recorded this fs pg) →
  (0 < mn)%N →
  is_min mn (recorded this fs pg) →
  is_max (k * mn)%N (recorded this fs pg) →
  i ∈ appended (analyzeSizes this fs) st →
  type i = LAYOUT_INCONSISTENCY →
  page i = Some pg →
  description i
  = "Extreme content differences across devices (" ++ pretty (Z.of_N k) ++ ".0x variation)".
Proof.
  intros Hpg Hsize Hsafe Hpos Hmin Hmax Hi Hty Hp.
  destruct (proj2 (layout_inconsistency_general this fs st pg mn (k * mn)%N
                     Hpg Hsize Hsafe Hmin Hmax) i Hi Hty Hp) as (_ & _ & ->).
  f_equal.
  assert (k * mn < 2 ^ 53)%N as Hkm by (destruct Hmax as [[d Hd] _]; eauto).
  assert (mn < 2 ^ 53)%N as Hm by (destruct Hmin as [[d Hd] _]; eauto).
  assert (0 < k)%N as Hk.
  { destruct Hmax as [[d Hd] _], Hmin as [_ Hle]. apply Hle in Hd. nia. }
  destruct (div_safe (k * mn) mn) as (m & e & -> & Hr); [lia..|].
  rewrite N2Z.inj_mul in Hr.
  apply round_div_exact in Hr as (j & Hj & -> & ->).
  - rewrite toFixed1_exact by lia. by rewrite <-string_app_assoc.
  - lia.
  - change (2 ^ 53)%Z with (Z.of_N (2 ^ 53)). lia.
  - change (2 ^ 53)%Z with (Z.of_N (2 ^ 53)). lia.
Qed.

Lemma exact_multiple_description_witness :
  description (layout_inconsistency "addpagehere" (div 400 100)
                 {[ "Mobile" := 100%N; "Desktop" := 400%N ]})
  = "Extreme content differences across devices (" ++ pretty (Z.of_N 4) ++ ".0x variation)".
Proof.
  assert (Math_min (map_to_list (recorded constructor fs_100_400 "addpagehere")).*2 = 100%N)
    as Emin by (vm_compute; reflexivity).
  assert (Math_max (map_to_list (recorded constructor fs_100_400 "addpagehere")).*2
          = (4 * 100)%N) as Emax by (vm_compute; reflexivity).
  apply (exact_multiple_description constructor fs_100_400 fresh "addpagehere" 100%N 4%N).
  - left.
  - vm_compute. lia.
  - apply safe_sizes_values.
    assert ((map_to_list (recorded constructor fs_100_400 "addpagehere")).*2
            = [100%N; 400%N]) as -> by (vm_compute; reflexivity).
    repeat (constructor; [reflexivity|]). constructor.
  - reflexivity.
  - rewrite <-Emin. apply Math_min_is_min. vm_compute. lia.
  - rewrite <-Emax. apply Math_max_is_max. vm_compute. lia.
  - rewrite appended_analyzeSizes. vm_compute. right. left.
  - reflexivity.
  - reflexivity.
Defined.

(** ** What the phases read *)

(** X11.  Phase 3 looks at file names only: two baseline directories with
    the same set of names get the same issues, whatever the sizes of the
    files. *)
Theorem patterns_depend_on_names this fs fs' st st' entries entries' :
  fs !! baselinesDir this = Some entries →
  fs' !! baselinesDir this = Some entries' →
  dom entries = dom entries' →
  appended (analyzeLayoutPatterns this fs) st
  = appended (analyzeLayoutPatterns this fs') st'.
Proof.
  intros Hdir Hdir' Hdom.
  rewrite (appended_analyzeLayoutPatterns _ _ _ _ Hdir),
    (appended_analyzeLayoutPatterns _ _ _ _ Hdir').
  unfold pattern_issues. cbv zeta. by rewrite !length_filter_listing, Hdom.
Qed.

Lemma patterns_depend_on_names_witness :
  appended (analyzeLayoutPatterns constructor fs_100_300) fresh
  = appended (analyzeLayoutPatterns constructor fs_100_301) fresh.
Proof.
  apply (patterns_depend_on_names constructor fs_100_300 fs_100_301 fresh fresh
           sizes_100_300 sizes_100_301).
  - reflexivity.
  - reflexivity.
  - vm_compute. reflexivity.
Defined.

(** X12.  When the configured directory path is normalised and no device or
    page name holds a separator, [analyze] reads nothing but the baseline
    directory: two file systems that agree on it give the same result, the
    same issues and the same output, from every state.  A device name with a
    separator leads elsewhere: with the device '../diffs/Mobile' the run
    depends on the directory visual-tests/diffs. *)
Theorem analyze_reads_only_baselines :
  (∀ this fs fs' st,
     normalized (baselinesDir this) →
     (∀ d, d ∈ devices this → plain_name d) →
     (∀ p, p ∈ pages this → plain_name p) →
     fs !! baselinesDir this = fs' !! baselinesDir this →
     analyze this fs st = analyze this fs' st)
  ∧ fs_100_301 !! baselinesDir outside_device = fs_with_other !! baselinesDir outside_device
  ∧ appended (checkMissingFiles outside_device fs_100_301) fresh
    = [missing_baseline "../diffs/Mobile" "nav-homepage"
         "../diffs/Mobile-nav-homepage-baseline.png"]
  ∧ appended (checkMissingFiles outside_device fs_with_other) fresh = [].
Proof.
  split; [|split; [|split]].
  - intros this fs fs' st Hdir Hdev Hpages Hsame.
    destruct (fs !! baselinesDir this) as [entries|] eqn:Hfs.
    + unfold analyze. rewrite !analyze_until_patterns.
      rewrite (size_issues_ext this fs fs'), (missing_issues_ext this fs fs')
        by (done || by rewrite Hfs).
      unfold bind at 1 3.
      by rewrite (analyzeLayoutPatterns_run this fs _ entries Hfs),
        (analyzeLayoutPatterns_run this fs' _ entries (eq_sym Hsame)).
    + rewrite (analyze_throws this fs st Hfs), (analyze_throws this fs' st (eq_sym Hsame)).
      by rewrite (size_issues_ext this fs fs'), (missing_issues_ext this fs fs')
        by (done || by rewrite Hfs).
  - vm_compute. reflexivity.
  - rewrite appended_checkMissingFiles. vm_compute. reflexivity.
  - rewrite appended_checkMissingFiles. vm_compute. reflexivity.
Qed.

Lemma analyze_reads_only_baselines_witness :
  analyze constructor fs_100_301 fresh = analyze constructor fs_with_other fresh.
Proof.
  apply (proj1 analyze_reads_only_baselines constructor fs_100_301 fs_with_other fresh).
  - split; [discriminate|]. vm_compute. reflexivity.
  - intros d Hd. repeat (apply elem_of_cons in Hd as [->|Hd]; [vm_compute; reflexivity|]).
    by apply elem_of_nil in Hd.
  - intros p Hp. repeat (apply elem_of_cons in Hp as [->|Hp]; [vm_compute; reflexivity|]).
    by apply elem_of_nil in Hp.
  - vm_compute. reflexivity.
Defined.

(** X13.  Phase 2 pushes nothing exactly when every configured device has a
    baseline for every configured page. *)
Theorem complete_baselines_iff this fs st :
  appended (checkMissingFiles this fs) st = []
  ↔ ∀ d p, d ∈ devices this → p ∈ pages this → has_baseline this fs p d.
Proof.
  rewrite appended_checkMissingFiles. split.
  - intros Hnil d p Hd Hp. destruct (decide (has_baseline this fs p d)) as [|Habs]; [done|].
    assert (missing_baseline d p (baseline_name d p) ∈ missing_issues this fs) as Hin.
    { apply elem_of_missing_issues. by exists d, p. }
    rewrite Hnil in Hin. by apply elem_of_nil in Hin.
  - intros Hall. destruct (missing_issues this fs) as [|i l] eqn:E; [done|].
    assert (i ∈ missing_issues this fs) as Hin by (rewrite E; left).
    apply elem_of_missing_issues in Hin as (d & p & Hd & Hp & Habs & _).
    destruct Habs. by apply Hall.
Qed.

(** ** How many issues a run can hold *)

Lemma length_bind_le {A B} (f : A → list B) (c : nat) (l : list A) :
  (∀ x, length (f x) ≤ c)%nat → (length (l ≫= f) ≤ c * length l)%nat.
Proof.
  intros Hf. induction l as [|x l IH]; [simpl; lia|].
  rewrite bind_cons, length_app. specialize (Hf x). simpl. lia.
Qed.

Lemma length_page_issues this pageSizes pg :
  (length (page_issues this pageSizes pg) ≤ 2)%nat.
Proof.
  unfold page_issues. cbv zeta. rewrite length_app.
  destruct (_ <? 4)%nat, (_ && _); simpl; lia.
Qed.

Lemma length_size_issues this fs :
  (length (size_issues this fs) ≤ 2 * length (pages this))%nat.
Proof. apply length_bind_le. intros pg. apply length_page_issues. Qed.

Lemma length_missing_issues this fs :
  (length (missing_issues this fs) ≤ length (devices this) * length (pages this))%nat.
Proof.
  unfold missing_issues.
  etrans; [apply (length_bind_le _ (length (pages this)))|lia].
  intros d. etrans; [apply (length_bind_le _ 1)|lia].
  intros p. unfold absent_issue. destruct (existsSync _ _); simpl; lia.
Qed.

Lemma length_pattern_issues entries : (length (pattern_issues entries) ≤ 2)%nat.
Proof.
  unfold pattern_issues. cbv zeta. rewrite length_app.
  destruct (_ =? 0)%nat, (_ <? 4)%nat; simpl; lia.
Qed.

(** X14.  A run on a new instance, whether it returns or throws, leaves at
    most (2 + devices) * pages + 2 issues: at most two per page entry from
    Phase 1, one per device and page entry from Phase 2, two from Phase 3. *)
Theorem issue_count_bounded this fs :
  (length (issues (analyze this fs fresh).2)
   ≤ (2 + length (devices this)) * length (pages this) + 2)%nat.
Proof.
  pose proof (length_size_issues this fs) as H1.
  pose proof (length_missing_issues this fs) as H2.
  destruct (fs !! baselinesDir this) as [entries|] eqn:Hdir.
  - destruct (analyze_run this fs fresh entries Hdir) as [report ->].
    pose proof (length_pattern_issues entries) as H3.
    cbn [snd issues fresh]. rewrite app_nil_l, !length_app. lia.
  - rewrite (analyze_throws this fs fresh Hdir).
    cbn [snd issues fresh]. rewrite app_nil_l, !length_app. lia.
Qed.

(** ** The shape of the issues *)

Lemma page_issues_well_formed this pageSizes pg :
  Forall well_formed (page_issues this pageSizes pg).
Proof.
  apply Forall_forall. intros i Hi.
  apply elem_of_page_issues in Hi as [[_ ->]|[_ [_ ->]]]; (split; [done|]); simpl; eauto 10.
Qed.

Lemma missing_issues_well_formed this fs : Forall well_formed (missing_issues this fs).
Proof.
  apply Forall_forall. intros i Hi.
  apply elem_of_missing_issues in Hi as (d & p & _ & _ & _ & ->).
  split; [done|]. simpl. by exists d, p.
Qed.

Lemma pattern_issues_well_formed entries : Forall well_formed (pattern_issues entries).
Proof.
  apply Forall_forall. intros i Hi.
  by apply elem_of_pattern_issues in Hi as [[_ ->]|[_ ->]].
Qed.

(** X15.  Every issue a run leaves, whether the run returns or throws, has
    the severity of its rule (HIGH for MISSING_DEVICE_SUPPORT,
    MISSING_BASELINE and MOBILE_NAV_MISSING, MEDIUM for LAYOUT_INCONSISTENCY
    and INCOMPLETE_HOMEPAGE_TESTING) and carries exactly the properties of its
    type; the filename of a MISSING_BASELINE issue is built from its own
    device and page. *)
Theorem issues_well_formed this fs st :
  Forall well_formed (issues st) →
  Forall well_formed (issues (analyze this fs st).2).
Proof.
  intros Hst.
  assert (Forall well_formed (size_issues this fs)) as H1.
  { apply Forall_bind. apply Forall_forall. intros pg _. apply page_issues_well_formed. }
  pose proof (missing_issues_well_formed this fs) as H2.
  destruct (fs !! baselinesDir this) as [entries|] eqn:Hdir.
  - destruct (analyze_run this fs st entries Hdir) as [report ->].
    cbn [snd issues]. rewrite !Forall_app.
    auto using pattern_issues_well_formed.
  - rewrite (analyze_throws this fs st Hdir). cbn [snd issues]. by rewrite !Forall_app.
Qed.

Lemma issues_well_formed_witness :
  Forall well_formed (issues (analyze constructor fs_100_301 fresh).2).
Proof.
  apply (issues_well_formed constructor fs_100_301 fresh). constructor.
Defined.

(** ** The entry point on success *)

(** X16.  When the baseline directory exists, the entry point writes nothing
    to standard error, its last output line is the completion line, and the
    line before it is the last line of the summary. *)
Theorem main_reports_completion fs entries :
  fs !! "visual-tests/baselines" = Some entries →
  stderr (main fs) = []
  ∧ ∃ report,
      stdout (main fs)
      = app report [ "   Pages Analyzed: 5";
                     nl ++ "🎯 Visual analysis complete! Ready for fixes." ++ nl ].
Proof.
  intros Hdir. unfold main.
  destruct (analyze_run constructor fs fresh entries Hdir) as [report ->].
  cbn [fst snd console_log stdout stderr issues fresh]. split; [done|].
  unfold summary_of, summary. rewrite app_nil_l.
  match goal with
  | |- context [(report ++ [?a; ?b; ?c; ?d; ?e; ?f])%list] =>
      exists (report ++ [a; b; c; d; e])%list
  end.
  rewrite <-!app_assoc. reflexivity.
Qed.

Lemma main_reports_completion_witness : stderr (main fs_empty) = [].
Proof.
  apply (main_reports_completion fs_empty ∅). reflexivity.
Defined.

(** ** The counter of Phase 2 *)

(** X17.  The local counter [missing] of Phase 2 keeps step with the issue
    list: the number printed in 'File check complete. N missing files.' is the
    number of MISSING_BASELINE issues Phase 2 has pushed, and Phase 2 pushes
    no issue of another type. *)
Theorem missing_counter_matches_issues this fs st :
  Forall (λ i, type i = MISSING_BASELINE) (appended (checkMissingFiles this fs) st)
  ∧ last (stdout (checkMissingFiles this fs st).2)
    = Some ("OK--> File check complete. "
            ++ pretty (length (appended (checkMissingFiles this fs) st))
            ++ " missing files." ++ nl).
Proof.
  rewrite appended_checkMissingFiles, checkMissingFiles_run. split.
  - apply Forall_forall. intros i Hi.
    by apply elem_of_missing_issues in Hi as (d & p & _ & _ & _ & ->).
  - cbn [snd stdout].
    match goal with
    | |- last (?l ++ [?a; ?b])%list = _ =>
        change (l ++ [a; b])%list with (l ++ [a] ++ [b])%list
    end.
    by rewrite app_assoc, last_snoc.
Qed.

(** ** The order of the issues *)

(** X18.  The list a run on a new instance returns is grouped by phase: first
    the issues of the size analysis (MISSING_DEVICE_SUPPORT and
    LAYOUT_INCONSISTENCY), then the MISSING_BASELINE issues, then the at most
    two issues of the pattern analysis, MOBILE_NAV_MISSING before
    INCOMPLETE_HOMEPAGE_TESTING. *)
Theorem issues_grouped_by_phase this fs entries :
  fs !! baselinesDir this = Some entries →
  ∃ sizes missing nav home,
    (analyze this fs fresh).1 = Ok (sizes ++ missing ++ nav ++ home)%list
    ∧ Forall (λ i, type i = MISSING_DEVICE_SUPPORT ∨ type i = LAYOUT_INCONSISTENCY) sizes
    ∧ Forall (λ i, type i = MISSING_BASELINE) missing
    ∧ (nav = [] ∨ nav = [mobile_nav_missing])
    ∧ (home = [] ∨ home = [incomplete_homepage_testing]).
Proof.
  intros Hdir. destruct (analyze_run this fs fresh entries Hdir) as [report ->].
  cbn [fst issues fresh]. rewrite app_nil_l.
  exists (size_issues this fs), (missing_issues this fs),
    (if (length (filter (λ file, is_mobile_nav file = true) (map_to_list entries).*1)
         =? 0)%nat then [mobile_nav_missing] else []),
    (if (length (filter (λ file, is_homepage file = true) (map_to_list entries).*1)
         <? 4)%nat then [incomplete_homepage_testing] else []).
  split; [done|]. split; [|split; [|split]].
  - apply Forall_forall. intros i Hi. apply list_elem_of_bind in Hi as (p & Hi & _).
    apply elem_of_page_issues in Hi as [[_ ->]|[_ [_ ->]]]; [by left | by right].
  - apply Forall_forall. intros i Hi.
    by apply elem_of_missing_issues in Hi as (d & p & _ & _ & _ & ->).
  - destruct (_ =? 0)%nat; [by right | by left].
  - destruct (_ <? 4)%nat; [by right | by left].
Qed.

Lemma issues_grouped_by_phase_witness :
  ∃ sizes missing nav home,
    (analyze constructor fs_100_301 fresh).1 = Ok (sizes ++ missing ++ nav ++ home)%list
    ∧ Forall (λ i, type i = MISSING_DEVICE_SUPPORT ∨ type i = LAYOUT_INCONSISTENCY) sizes
    ∧ Forall (λ i, type i = MISSING_BASELINE) missing
    ∧ (nav = [] ∨ nav = [mobile_nav_missing])
    ∧ (home = [] ∨ home = [incomplete_homepage_testing]).
Proof.
  apply (issues_grouped_by_phase constructor fs_100_301 sizes_100_301). reflexivity.
Defined.

(** ** The placeholder page list *)

(** X19.  With the reference configuration, a baseline directory that holds
    nothing but expected baseline files ({device}-addpagehere-baseline.png)
    always gets both issues of Phase 3: no such name contains 'nav' or
    'homepage'. *)
Theorem placeholder_pages_fail_patterns fs st entries :
  fs !! "visual-tests/baselines" = Some entries →
  (∀ file, file ∈ dom entries →
           ∃ d, d ∈ devices constructor ∧ file = baseline_name d "addpagehere") →
  appended (analyzeLayoutPatterns constructor fs) st
  = [mobile_nav_missing; incomplete_homepage_testing].
Proof.
  intros Hdir Hnames.
  rewrite (appended_analyzeLayoutPatterns constructor fs st entries Hdir).
  assert (∀ file, file ∈ (map_to_list entries).*1 →
                  is_mobile_nav file = false ∧ is_homepage file = false) as Hno.
  { intros file Hin. apply elem_of_listing, Hnames in Hin as (d & Hd & ->).
    repeat (apply elem_of_cons in Hd as [->|Hd]; [by vm_compute|]).
    by apply elem_of_nil in Hd. }
  unfold pattern_issues. cbv zeta.
  assert (length (filter (λ file, is_mobile_nav file = true) (map_to_list entries).*1)
          = 0%nat) as ->.
  { apply length_filter_0. intros file Hin Hnav. destruct (Hno file Hin). congruence. }
  assert (length (filter (λ file, is_homepage file = true) (map_to_list entries).*1)
          = 0%nat) as ->.
  { apply length_filter_0. intros file Hin Hhome. destruct (Hno file Hin). congruence. }
  reflexivity.
Qed.

Lemma placeholder_pages_fail_patterns_witness :
  appended (analyzeLayoutPatterns constructor fs_100_301) fresh
  = [mobile_nav_missing; incomplete_homepage_testing].
Proof.
  apply (placeholder_pages_fail_patterns fs_100_301 fresh sizes_100_301).
  - reflexivity.
  - intros file Hin. unfold sizes_100_301 in Hin.
    rewrite dom_insert_L, dom_singleton_L in Hin.
    apply elem_of_union in Hin as [Hin|Hin]; apply elem_of_singleton in Hin as ->.
    + exists "Mobile". split; [left | reflexivity].
    + exists "Desktop". split; [do 3 right; left | reflexivity].
Defined.

(** ** The summary on any issue list *)

Lemma length_by_three_severities (all : list Issue) :
  length all = (length (filter (has_severity HIGH) all)
                + length (filter (has_severity MEDIUM) all)
                + length (filter (has_severity LOW) all))%nat.
Proof.
  induction all as [|i all IH]; [done|].
  destruct (severity i) eqn:Hi.
  - rewrite (filter_cons_True (has_severity HIGH)) by done.
    rewrite (filter_cons_False (has_severity MEDIUM)) by (unfold has_severity; congruence).
    rewrite (filter_cons_False (has_severity LOW)) by (unfold has_severity; congruence).
    simpl. lia.
  - rewrite (filter_cons_False (has_severity HIGH)) by (unfold has_severity; congruence).
    rewrite (filter_cons_True (has_severity MEDIUM)) by done.
    rewrite (filter_cons_False (has_severity LOW)) by (unfold has_severity; congruence).
    simpl. lia.
  - rewrite (filter_cons_False (has_severity HIGH)) by (unfold has_severity; congruence).
    rewrite (filter_cons_False (has_severity MEDIUM)) by (unfold has_severity; congruence).
    rewrite (filter_cons_True (has_severity LOW)) by done.
    simpl. lia.
Qed.

(** X20.  Phase 4 never throws and never touches the issue list, whatever the
    list holds.  The summary it ends with counts HIGH issues as Critical and
    MEDIUM issues as Medium; an issue of severity LOW is counted in Total
    Issues only, so Total is Critical + Medium + the number of LOW issues. *)
Theorem summary_on_any_list this st :
  ∃ report critical medium,
    generateRecommendations this st =
      (Ok (),
       mkState (issues st)
         (stdout st ++ report ++ [
            nl ++ "📊 ANALYSIS SUMMARY:";
            "   Critical Issues: " ++ pretty critical;
            "   Medium Issues: " ++ pretty medium;
            "   Total Issues: " ++ pretty (length (issues st));
            "   Devices Tested: " ++ pretty (length (devices this));
            "   Pages Analyzed: " ++ pretty (length (pages this))])
         (stderr st))
    ∧ critical = length (filter (λ i, severity i = HIGH) (issues st))
    ∧ medium = length (filter (λ i, severity i = MEDIUM) (issues st))
    ∧ length (issues st)
      = (critical + medium + length (filter (λ i, severity i = LOW) (issues st)))%nat.
Proof.
  destruct (generateRecommendations_run this st) as [body Hrun].
  exists (("💡 Generating 2025 Mobile-First Recommendations..." ++ nl) :: body),
    (length (filter (has_severity HIGH) (issues st))),
    (length (filter (has_severity MEDIUM) (issues st))).
  split; [exact Hrun|]. split; [done|]. split; [done|].
  apply length_by_three_severities.
Qed.

(** ** Sizes that a number does not hold exactly *)

Lemma to_double_nearest n :
  (2 ^ 53 ≤ n)%N →
  ∃ q, (to_double n = q * 2 ^ (N.log2 n - 52) ∧ 2 ^ 52 ≤ q ≤ 2 ^ 53
        ∧ 2 * n ≤ 2 * to_double n + 2 ^ (N.log2 n - 52)
        ∧ 2 * to_double n ≤ 2 * n + 2 ^ (N.log2 n - 52))%N.
Proof.
  intros Hn. unfold to_double. destruct (N.ltb_spec n (2 ^ 53)) as [|_]; [lia|]. cbv zeta.
  assert (52 ≤ N.log2 n)%N as Hlog.
  { apply N.log2_le_pow2; [lia|]. etrans; [|exact Hn]. by vm_compute. }
  destruct (N.log2_spec n ltac:(lia)) as [Hlo Hhi].
  set (sh := (N.log2 n - 52)%N) in *.
  assert (2 ^ N.log2 n = 2 ^ 52 * 2 ^ sh)%N as Hpow.
  { rewrite <-N.pow_add_r. f_equal. unfold sh. lia. }
  assert (2 ^ N.succ (N.log2 n) = 2 ^ 53 * 2 ^ sh)%N as Hpow'.
  { rewrite N.pow_succ_r', Hpow. change (2 ^ 53)%N with (2 * 2 ^ 52)%N. lia. }
  assert (0 < 2 ^ sh)%N as Hpos by (apply N.neq_0_lt_0, N.pow_nonzero; lia).
  pose proof (N.Div0.div_mod n (2 ^ sh)) as Hdm.
  pose proof (N.mod_lt n (2 ^ sh) ltac:(lia)) as Hrm.
  assert (2 ^ 52 ≤ n / 2 ^ sh)%N as Hq1 by (apply N.div_le_lower_bound; lia).
  assert (n / 2 ^ sh < 2 ^ 53)%N as Hq2 by (apply N.Div0.div_lt_upper_bound; lia).
  set (u := (2 ^ sh)%N) in *. set (q := (n / u)%N) in *. set (r := (n mod u)%N) in *.
  clearbody u q r.
  destruct ((u <? 2 * r) || ((2 * r =? u) && N.odd q))%N eqn:Hup.
  - assert (u ≤ 2 * r)%N as Hur.
    { apply orb_true_iff in Hup as [Hup|Hup].
      - apply N.ltb_lt in Hup. lia.
      - apply andb_true_iff in Hup as [Hup _]. apply N.eqb_eq in Hup. lia. }
    exists (q + 1)%N. split; [done|]. split; [lia|]. nia.
  - assert (2 * r ≤ u)%N as Hur.
    { apply orb_false_iff in Hup as [Hup _]. apply N.ltb_ge in Hup. lia. }
    exists q. split; [done|]. split; [lia|]. nia.
Qed.

(** X21.  The size on record for a device is the number [fs.Stats.size]: the
    byte size itself below 2^53, and past it the nearest number with a
    significand of 53 bits, at most half a unit in the last place away.
    Files of 2^53 + 1 and 2^53 + 3 bytes are on record with 2^53 and
    2^53 + 4; files of 1 and 2^60 bytes get the description
    '1152921504606846976.0x variation'. *)
Theorem recorded_size_is_nearest_double :
  (∀ this fs pg d n,
     d ∈ devices this →
     d ≠ "__proto__" →
     lookup_path fs (path_join (baselinesDir this) (baseline_name d pg)) = Some n →
     ∃ r, recorded this fs pg !! d = Some r
          ∧ ((n < 2 ^ 53)%N → r = n)
          ∧ ((2 ^ 53 ≤ n)%N →
             ∃ q, (r = q * 2 ^ (N.log2 n - 52) ∧ 2 ^ 52 ≤ q ≤ 2 ^ 53
                   ∧ 2 * n ≤ 2 * r + 2 ^ (N.log2 n - 52)
                   ∧ 2 * r ≤ 2 * n + 2 ^ (N.log2 n - 52))%N))
  ∧ recorded constructor (fs_sizes (2 ^ 53 + 1) (2 ^ 53 + 3)) "addpagehere"
    = {[ "Mobile" := (2 ^ 53)%N; "Desktop" := (2 ^ 53 + 4)%N ]}
  ∧ (∀ st, layout_descriptions
             (appended (analyzeSizes constructor (fs_sizes 1 (2 ^ 60))) st)
           = replicate 5
               "Extreme content differences across devices (1152921504606846976.0x variation)").
Proof.
  split; [|split].
  - intros this fs pg d n Hd Hproto Hfile. exists (to_double n).
    rewrite lookup_recorded, Hfile. destruct (decide _) as [_|[]]; [|done].
    split; [done|]. split; [apply to_double_safe | apply to_double_nearest].
  - by vm_compute.
  - intros st. rewrite appended_analyzeSizes. by vm_compute.
Qed.

Lemma recorded_size_is_nearest_double_witness :
  ∃ r, recorded constructor fs_100_301 "addpagehere" !! "Mobile" = Some r
       ∧ ((100 < 2 ^ 53)%N → r = 100%N)
       ∧ ((2 ^ 53 ≤ 100)%N →
          ∃ q, (r = q * 2 ^ (N.log2 100 - 52) ∧ 2 ^ 52 ≤ q ≤ 2 ^ 53
                ∧ 2 * 100 ≤ 2 * r + 2 ^ (N.log2 100 - 52)
                ∧ 2 * r ≤ 2 * 100 + 2 ^ (N.log2 100 - 52))%N).
Proof.
  apply (proj1 recorded_size_is_nearest_double constructor fs_100_301 "addpagehere" "Mobile").
  - left.
  - discriminate.
  - vm_compute. reflexivity.
Defined.

(** ** Device names that an object already knows *)

(** X22.  A device named [__proto__] never has a size on record, whatever
    files exist: the assignment to that key stores nothing.  With the devices
    Mobile, Tablet, Desktop and [__proto__] and all four baselines present,
    Phase 2 pushes nothing, while Phase 1 counts three sizes and pushes a
    MISSING_DEVICE_SUPPORT issue whose device list is empty. *)
Theorem proto_device_never_recorded :
  (∀ this fs pg, recorded this fs pg !! "__proto__" = None)
  ∧ (∀ d, d ∈ devices proto_device → has_baseline proto_device fs_home_proto "home" d)
  ∧ (∀ st, appended (checkMissingFiles proto_device fs_home_proto) st = [])
  ∧ recorded proto_device fs_home_proto "home"
    = {[ "Mobile" := 1000%N; "Tablet" := 1500%N; "Desktop" := 2000%N ]}
  ∧ (∀ st, appended (analyzeSizes proto_device fs_home_proto) st
           = [ {| type := MISSING_DEVICE_SUPPORT;
                  page := Some "home";
                  device := None;
                  severity := HIGH;
                  description := "home page missing on some devices";
                  devices_of := Some [];
                  sizes_of := None;
                  filename := None |} ]).
Proof.
  split; [|split; [|split; [|split]]].
  - intros this fs pg. rewrite lookup_recorded. by destruct (decide _) as [[_ []]|_].
  - intros d Hd.
    repeat (apply elem_of_cons in Hd as [->|Hd];
            [apply (bool_decide_unpack _); vm_compute; exact I|]).
    by apply elem_of_nil in Hd.
  - intros st. rewrite appended_checkMissingFiles. by vm_compute.
  - by vm_compute.
  - intros st. rewrite appended_analyzeSizes. by vm_compute.
Qed.

(** X23.  A configured device that bears the name of a member of
    [Object.prototype] and has no baseline is never in the device list of a
    MISSING_DEVICE_SUPPORT issue: the size object answers with the inherited
    member, which is truthy.  With the devices Mobile, toString and
    constructor and a baseline for Mobile only, Phase 2 reports the two
    missing baselines and the device list of Phase 1 is empty. *)
Theorem inherited_names_not_listed :
  (∀ this fs st pg i ds d,
     pg ∈ pages this →
     i ∈ appended (analyzeSizes this fs) st →
     type i = MISSING_DEVICE_SUPPORT →
     page i = Some pg →
     devices_of i = Some ds →
     d ∈ Object_prototype →
     ¬ has_baseline this fs pg d →
     d ∉ ds)
  ∧ (∀ st, appended (analyzeSizes inherited_devices fs_mobile_home) st
           = [ {| type := MISSING_DEVICE_SUPPORT;
                  page := Some "home";
                  device := None;
                  severity := HIGH;
                  description := "home page missing on some devices";
                  devices_of := Some [];
                  sizes_of := None;
                  filename := None |} ])
  ∧ (∀ st, appended (checkMissingFiles inherited_devices fs_mobile_home) st
           = [ missing_baseline "toString" "home" "toString-home-baseline.png";
               missing_baseline "constructor" "home" "constructor-home-baseline.png" ]).
Proof.
  split; [|split].
  - intros this fs st pg i ds d Hpg Hi Hty Hp Hds Hd Habs Hin.
    destruct (proj2 (missing_device_support_general this fs st pg Hpg) i Hi Hty Hp)
      as [_ Hds'].
    rewrite Hds in Hds'. injection Hds' as ->.
    apply list_elem_of_filter in Hin as [Hfalsy _]. unfold falsy_size in Hfalsy.
    rewrite lookup_recorded in Hfalsy. unfold has_baseline in Habs.
    destruct (lookup_path fs _) as [n|]; [by destruct Habs|].
    destruct (decide _); simpl in Hfalsy; by rewrite bool_decide_eq_true_2 in Hfalsy.
  - intros st. rewrite appended_analyzeSizes. by vm_compute.
  - intros st. rewrite appended_checkMissingFiles. by vm_compute.
Qed.

Lemma inherited_names_not_listed_witness :
  "toString" ∉ ([] : list string).
Proof.
  apply (proj1 inherited_names_not_listed inherited_devices fs_mobile_home fresh "home"
           (missing_device_support inherited_devices "home" {[ "Mobile" := 1000%N ]})
           [] "toString").
  - left.
  - rewrite appended_analyzeSizes. vm_compute. left.
  - reflexivity.
  - reflexivity.
  - vm_compute. reflexivity.
  - apply (bool_decide_unpack _). vm_compute. exact I.
  - apply (bool_decide_unpack _). vm_compute. exact I.
Defined.
